(** * gen_plots.py: the CSV loader and the three chart jobs

    A shallow embedding of [src/gen_plots.py], a straight-line Python script:
    it reads [sensitivity-metrics.csv] with [csv.DictReader] into the dict
    [data] of five lists, renders three matplotlib figures from these lists,
    saves each to a fixed path and prints one [Saved: ...] line per figure.

    The script is embedded as a state-and-exception monad over the part of
    the world it touches: the variable [data], pyplot's open figures, the
    file system and standard output.  An uncaught exception ends the run and
    leaves the state as it was when it was raised. *)

From Stdlib Require Import ZArith Strings.Ascii Floats.PrimFloat Numbers.Cyclic.Int63.Uint63.
From stdpp Require Import gmap strings list.

(* String literals are read as strings; [++], [<?] and numerals stay those
   of lists and natural numbers. *)
Open Scope string_scope.
Open Scope list_scope.
Open Scope nat_scope.

(** ** Python exceptions the script can end with *)

Inductive exn :=
  | FileNotFoundError (path : string)   (* open() of a path that does not exist *)
  | UnicodeDecodeError (path : string)  (* text-mode read of a file that is no text *)
  | KeyError (key : string)             (* d[key] where key is not in d *)
  | TypeError                           (* float(None), float(a list) *)
  | ValueError (arg : string)           (* float(s) for a string that is no number;
                                           plot(x, y) for sequences of unequal length *)
  | OSError (path : string)             (* savefig to a path that cannot be written *)
  | NameError (name : string).          (* use of a name that is not bound *)

(** Python's class hierarchy makes [FileNotFoundError] a subclass of
    [OSError], of which [IOError] is an alias. *)
Definition is_IOError (e : exn) : bool :=
  match e with
  | FileNotFoundError _ | OSError _ => true
  | _ => false
  end.

(** The specification's error taxonomy groups under the name FormatError
    the failures of the loader on the content of the CSV: "missing required
    CSV column, non-numeric field value".  In the script these are the
    exceptions of [row[key]] and of [float(...)]. *)
Definition is_FormatError (e : exn) : bool :=
  match e with
  | KeyError _ | TypeError | ValueError _ => true
  | _ => false
  end.

(** ** Values held by a row of [csv.DictReader]

    A row is a dict from field names to strings.  A row shorter than the
    header maps the names left over to [restval], which is [None]; a longer
    one maps the key [restkey], which is [None] too, to the list of the
    fields left over.  Keys are therefore [option string], [None] standing
    for Python's [None]. *)

Inductive pyval :=
  | PStr (s : string)
  | PNone
  | PList (l : list string).

Definition restkey : option string := None.
Definition restval : pyval := PNone.

(** [dict(zip(fieldnames, row))]: pairs are inserted left to right, so of
    two equal field names the later one wins. *)
Definition dict_zip (fieldnames row : list string) : gmap (option string) pyval :=
  foldl (λ d kv, <[Some kv.1 := PStr kv.2]> d) ∅ (zip fieldnames row).

(** The dict [DictReader.__next__] builds from one record. *)
Definition DictReader_row (fieldnames row : list string) : gmap (option string) pyval :=
  let d := dict_zip fieldnames row in
  let lf := length fieldnames in
  let lr := length row in
  if (lf <? lr)%nat then <[restkey := PList (drop lf row)]> d
  else if (lr <? lf)%nat then foldl (λ d key, <[Some key := restval]> d) d (drop lr fieldnames)
  else d.

(** The rows [csv.DictReader(f)] yields.  The file is given as the sequence
    of records [csv.reader] splits it into, a blank line being the empty
    record.  The first record, blank or not, is the header; blank records
    after it are skipped; an empty file has no header and yields no row. *)
Definition DictReader (records : list (list string)) : list (gmap (option string) pyval) :=
  match records with
  | [] => []
  | fieldnames :: rest => DictReader_row fieldnames <$> filter (λ r, r ≠ []) rest
  end.

(** ** The fixed paths and keys of the script *)

Definition csv_path : string := "/workspaces/GENUX-FORGE/sensitivity-metrics.csv".
Definition pr_path : string := "/workspaces/GENUX-FORGE/sensitivity-plot-pr.png".
Definition threshold_path : string := "/workspaces/GENUX-FORGE/sensitivity-plot-threshold.png".
Definition roc_path : string := "/workspaces/GENUX-FORGE/sensitivity-plot-roc.png".

(** The five columns, in the order the loop body reads them. *)
Definition columns : list string := ["threshold"; "precision"; "recall"; "f1"; "fpr"].

(** Closes a goal [key ∈ columns] for one of the five keys. *)
Ltac in_columns := unfold columns; repeat constructor.

(** ** A concrete floating-point domain for evaluation

    The development below is parametric in the type of floats and in what
    [float(s)] returns for a string.  This module gives one instance, used
    to run the model on concrete files: IEEE binary64 numbers, as Python's,
    and plain decimal literals [[-]digits[.digits]] of at most fifteen
    digits, for which one correctly rounded division gives the float Python
    reads.  Python's [float] accepts more (exponents, [inf], [nan],
    surrounding blanks, underscores); no theorem depends on the instance. *)
Module Decimal.

Definition digit_of (a : ascii) : option Z :=
  let n := Z.of_nat (nat_of_ascii a) in
  if bool_decide (48 ≤ n ≤ 57)%Z then Some (n - 48)%Z else None.

(** Reads [digits[.digits]]: the digits as one integer, and how many of
    them stand after the point. *)
Fixpoint scan (s : string) (acc : Z) (seen : nat) (frac : option nat) : option (Z * nat * nat) :=
  match s with
  | EmptyString =>
      match seen, frac with
      | O, _ => None
      | _, Some O => None
      | _, Some k => Some (acc, seen, k)
      | _, None => Some (acc, seen, O)
      end
  | String a s' =>
      if Ascii.eqb a "."%char then
        match seen, frac with
        | S _, None => scan s' acc seen (Some O)
        | _, _ => None
        end
      else
        match digit_of a with
        | Some d => scan s' (10 * acc + d)%Z (S seen) (S <$> frac)
        | None => None
        end
  end.

Definition of_Z (z : Z) : float := PrimFloat.of_uint63 (Uint63.of_Z z).

Definition unsigned (s : string) : option float :=
  match scan s 0%Z 0%nat None with
  | Some (m, seen, k) =>
      if (seen <=? 15)%nat then Some (PrimFloat.div (of_Z m) (of_Z (10 ^ Z.of_nat k)%Z)) else None
  | None => None
  end.

Definition float_of_str (s : string) : option float :=
  match s with
  | String "-"%char s' => PrimFloat.opp <$> unsigned s'
  | _ => unsigned s
  end.

End Decimal.

(** * The script *)

Section GenPlots.

(** Python's floats, and [float(s)] on a string: [None] where Python raises
    [ValueError]. *)
Context {F : Type}.
Variable float_of_str : string → option F.

(** ** What matplotlib draws *)

(** One call of [ax.plot(x, y, fmt, ...)]. *)
Record Line2D := mkLine2D {
  xdata : list F;
  ydata : list F;
  fmt : string;
  label : string;
  linewidth : nat;
  markersize : option nat;
  color : option string
}.

(** One call of [ax.axhline(y=..., ...)]; the transparency is kept as the
    literal written in the script. *)
Record HLine := mkHLine {
  hy : Z;
  hcolor : string;
  hlinestyle : string;
  halpha : string
}.

(** A figure with its one axes, as [plt.subplots(1, 1, figsize=...)] makes
    it and the [ax.*] calls fill it. *)
Record Figure := mkFigure {
  figsize : nat * nat;
  lines : list Line2D;
  hlines : list HLine;
  xlabel : string;
  ylabel : string;
  title : string;
  grid : option string;     (* [Some alpha] once [ax.grid(True, alpha=...)] ran *)
  legend : bool
}.

(** What [fig.savefig(path, dpi=..., bbox_inches=...)] leaves in the file:
    the figure as it is when saved, and the two settings. *)
Record Image := mkImage {
  img_fig : Figure;
  img_dpi : nat;
  img_bbox : string
}.

(** A file is a text, given by its CSV records, or an image. *)
Inductive File :=
  | Text (records : list (list string))
  | Png (img : Image).

(** ** The state of a run *)

Record State := mkState {
  data : gmap string (list F);   (* the variable [data] *)
  figs : list Figure;            (* pyplot's open figures, newest first;
                                    [fig, ax] name the newest *)
  fs : gmap string File;         (* the file system *)
  unwritable : gset string;      (* paths a write fails on: no such directory,
                                    no permission *)
  stdout : list string           (* the lines printed *)
}.

Definition set_data (f : gmap string (list F) → gmap string (list F)) (st : State) : State :=
  mkState (f (data st)) (figs st) (fs st) (unwritable st) (stdout st).
Definition set_figs (f : list Figure → list Figure) (st : State) : State :=
  mkState (data st) (f (figs st)) (fs st) (unwritable st) (stdout st).
Definition set_fs (f : gmap string File → gmap string File) (st : State) : State :=
  mkState (data st) (figs st) (f (fs st)) (unwritable st) (stdout st).
Definition set_stdout (f : list string → list string) (st : State) : State :=
  mkState (data st) (figs st) (fs st) (unwritable st) (f (stdout st)).

(** ** The monad: a state, and an exception or a result *)

Definition M (A : Type) : Type := State → State * (exn + A).

Definition ret {A} (a : A) : M A := λ st, (st, inr a).
Definition raise {A} (e : exn) : M A := λ st, (st, inl e).
Definition bind {A B} (m : M A) (k : A → M B) : M B := λ st,
  match m st with
  | (st', inr a) => k a st'
  | (st', inl e) => (st', inl e)
  end.
Definition modify (f : State → State) : M unit := λ st, (f st, inr tt).

Notation "x <- m ;; k" := (bind m (λ x, k))
  (at level 100, m at next level, right associativity, only parsing).
Notation "m ;;; k" := (bind m (λ _, k))
  (at level 100, right associativity, only parsing).

(** [for x in l: body(x)] *)
Fixpoint for_each {A} (body : A → M unit) (l : list A) : M unit :=
  match l with
  | [] => ret tt
  | x :: l' => body x ;;; for_each body l'
  end.

(** ** The CSV loader (lines 7 to 15) *)

(** [data = {'threshold': [], 'precision': [], 'recall': [], 'f1': [], 'fpr': []}];
    [table] is the dict [data] holding the five given lists. *)
Definition table (ths ps rs f1s fprs : list F) : gmap string (list F) :=
  <["fpr" := fprs]> (<["f1" := f1s]> (<["recall" := rs]>
    (<["precision" := ps]> (<["threshold" := ths]> ∅)))).

Definition init_data : M unit := modify (set_data (λ _, table [] [] [] [] [])).

(** [open(path, 'r')] and the reading of the text. *)
Definition open_r (path : string) : M (list (list string)) := λ st,
  match fs st !! path with
  | Some (Text records) => (st, inr records)
  | Some (Png _) => (st, inl (UnicodeDecodeError path))
  | None => (st, inl (FileNotFoundError path))
  end.

(** [row[key]] *)
Definition row_getitem (row : gmap (option string) pyval) (key : string) : M pyval :=
  match row !! Some key with
  | Some v => ret v
  | None => raise (KeyError key)
  end.

(** [float(v)] *)
Definition float (v : pyval) : M F :=
  match v with
  | PStr s =>
      match float_of_str s with
      | Some x => ret x
      | None => raise (ValueError s)
      end
  | PNone | PList _ => raise TypeError
  end.

(** [data[key]] *)
Definition data_getitem (key : string) : M (list F) := λ st,
  match data st !! key with
  | Some l => (st, inr l)
  | None => (st, inl (KeyError key))
  end.

(** [.append(x)] on the list object [data[key]]: the list is changed in
    place, in the dict. *)
Definition list_append (key : string) (x : F) : M unit :=
  modify (set_data (alter (λ l, l ++ [x]) key)).

(** One line of the loop body, [data[key].append(float(row[key]))]: the
    list is looked up, then the argument is evaluated, then it is appended. *)
Definition append_field (row : gmap (option string) pyval) (key : string) : M unit :=
  _ <- data_getitem key ;;
  v <- row_getitem row key ;;
  x <- float v ;;
  list_append key x.

(** Lines 11 to 15. *)
Definition loop_body (row : gmap (option string) pyval) : M unit :=
  append_field row "threshold" ;;;
  append_field row "precision" ;;;
  append_field row "recall" ;;;
  append_field row "f1" ;;;
  append_field row "fpr".

(** Lines 7 to 15. *)
Definition load : M unit :=
  init_data ;;;
  records <- open_r csv_path ;;
  for_each loop_body (DictReader records).

(** ** The chart renderer (lines 17 to 53) *)

(** [fig, ax = plt.subplots(1, 1, figsize=size)]: a new, empty figure, which
    [fig] and [ax] name from now on. *)
Definition subplots (size : nat * nat) : M unit :=
  modify (set_figs (λ fgs, mkFigure size [] [] "" "" "" None false :: fgs)).

(** A call on [ax]: it changes the figure [ax] names. *)
Definition on_ax (f : Figure → Figure) : M unit := λ st,
  match figs st with
  | fg :: fgs => (set_figs (λ _, f fg :: fgs) st, inr tt)
  | [] => (st, inl (NameError "ax"))
  end.

Definition add_line (l : Line2D) (fg : Figure) : Figure :=
  mkFigure (figsize fg) (lines fg ++ [l]) (hlines fg) (xlabel fg) (ylabel fg)
           (title fg) (grid fg) (legend fg).
Definition add_hline (h : HLine) (fg : Figure) : Figure :=
  mkFigure (figsize fg) (lines fg) (hlines fg ++ [h]) (xlabel fg) (ylabel fg)
           (title fg) (grid fg) (legend fg).
Definition with_xlabel (s : string) (fg : Figure) : Figure :=
  mkFigure (figsize fg) (lines fg) (hlines fg) s (ylabel fg) (title fg) (grid fg) (legend fg).
Definition with_ylabel (s : string) (fg : Figure) : Figure :=
  mkFigure (figsize fg) (lines fg) (hlines fg) (xlabel fg) s (title fg) (grid fg) (legend fg).
Definition with_title (s : string) (fg : Figure) : Figure :=
  mkFigure (figsize fg) (lines fg) (hlines fg) (xlabel fg) (ylabel fg) s (grid fg) (legend fg).
Definition with_grid (alpha : string) (fg : Figure) : Figure :=
  mkFigure (figsize fg) (lines fg) (hlines fg) (xlabel fg) (ylabel fg) (title fg)
           (Some alpha) (legend fg).
Definition with_legend (fg : Figure) : Figure :=
  mkFigure (figsize fg) (lines fg) (hlines fg) (xlabel fg) (ylabel fg) (title fg) (grid fg) true.

(** [ax.plot(data[xkey], data[ykey], fmt, label=..., linewidth=..., ...)].
    matplotlib refuses two sequences of unequal length with a [ValueError]. *)
Definition ax_plot (xkey ykey fmt lbl : string) (lw : nat) (ms : option nat)
    (col : option string) : M unit :=
  x <- data_getitem xkey ;;
  y <- data_getitem ykey ;;
  if decide (length x = length y)
  then on_ax (add_line (mkLine2D x y fmt lbl lw ms col))
  else raise (ValueError "x and y must have same first dimension").

Definition ax_axhline (y : Z) (col style alpha : string) : M unit :=
  on_ax (add_hline (mkHLine y col style alpha)).
Definition ax_set_xlabel (s : string) : M unit := on_ax (with_xlabel s).
Definition ax_set_ylabel (s : string) : M unit := on_ax (with_ylabel s).
Definition ax_set_title (s : string) : M unit := on_ax (with_title s).
Definition ax_grid (alpha : string) : M unit := on_ax (with_grid alpha).
Definition ax_legend : M unit := on_ax with_legend.

(** [fig.savefig(path, dpi=..., bbox_inches=...)]: one attempt to write the
    figure [fig] names; a path that cannot be written raises and leaves the
    file system as it is. *)
Definition fig_savefig (path : string) (dpi : nat) (bbox : string) : M unit := λ st,
  match figs st with
  | [] => (st, inl (NameError "fig"))
  | fg :: _ =>
      if decide (path ∈ unwritable st) then (st, inl (OSError path))
      else (set_fs (insert path (Png (mkImage fg dpi bbox))) st, inr tt)
  end.

(** [print(line)] *)
Definition print (line : string) : M unit :=
  modify (set_stdout (λ out, out ++ [line])).

(** [plt.close('all')] *)
Definition plt_close_all : M unit := modify (set_figs (λ _, [])).

(** Plot 1: Precision vs Recall (lines 18 to 26). *)
Definition job1 : M unit :=
  subplots (8, 6) ;;;
  ax_plot "recall" "precision" "o-" "Precision-Recall" 2 (Some 6) None ;;;
  ax_set_xlabel "Recall" ;;;
  ax_set_ylabel "Precision" ;;;
  ax_set_title "GenUX Drift Detection: Precision-Recall Curve" ;;;
  ax_grid "0.3" ;;;
  ax_legend ;;;
  fig_savefig "/workspaces/GENUX-FORGE/sensitivity-plot-pr.png" 100 "tight" ;;;
  print "Saved: /workspaces/GENUX-FORGE/sensitivity-plot-pr.png".

(** Plot 2: Metrics vs Threshold (lines 29 to 40). *)
Definition job2 : M unit :=
  subplots (10, 6) ;;;
  ax_plot "threshold" "precision" "o-" "Precision" 2 None None ;;;
  ax_plot "threshold" "recall" "s-" "Recall" 2 None None ;;;
  ax_plot "threshold" "f1" "^-" "F1" 2 None None ;;;
  ax_axhline 0 "k" "-" "0.1" ;;;
  ax_set_xlabel "Threshold" ;;;
  ax_set_ylabel "Score" ;;;
  ax_set_title "GenUX Drift Detection: Performance vs Threshold" ;;;
  ax_legend ;;;
  ax_grid "0.3" ;;;
  fig_savefig "/workspaces/GENUX-FORGE/sensitivity-plot-threshold.png" 100 "tight" ;;;
  print "Saved: /workspaces/GENUX-FORGE/sensitivity-plot-threshold.png".

(** Plot 3: ROC-like, FPR vs Recall (lines 43 to 51). *)
Definition job3 : M unit :=
  subplots (8, 6) ;;;
  ax_plot "fpr" "recall" "o-" "ROC (approx)" 2 (Some 6) (Some "red") ;;;
  ax_set_xlabel "False Positive Rate (FPR)" ;;;
  ax_set_ylabel "True Positive Rate (Recall)" ;;;
  ax_set_title "GenUX Drift Detection: FPR vs TPR" ;;;
  ax_grid "0.3" ;;;
  ax_legend ;;;
  fig_savefig "/workspaces/GENUX-FORGE/sensitivity-plot-roc.png" 100 "tight" ;;;
  print "Saved: /workspaces/GENUX-FORGE/sensitivity-plot-roc.png".

(** The whole script. *)
Definition main : M unit :=
  load ;;;
  job1 ;;;
  job2 ;;;
  job3 ;;;
  plt_close_all.

(** ** Notions used to state the properties *)

(** The field of a record that stands under the header name [c]: the two
    lists are read side by side up to the first name equal to [c]. *)
Fixpoint cell (fieldnames row : list string) (c : string) : option string :=
  match fieldnames, row with
  | k :: ks, v :: vs => if decide (k = c) then Some v else cell ks vs c
  | _, _ => None
  end.

(** The value of the expression [float(row[key])], or the exception it
    raises. *)
Definition field_value (row : gmap (option string) pyval) (key : string) : exn + F :=
  match row !! Some key with
  | None => inl (KeyError key)
  | Some (PStr s) =>
      match float_of_str s with
      | Some x => inr x
      | None => inl (ValueError s)
      end
  | Some _ => inl TypeError
  end.

(** The five lists of [data] have one common length [n]. *)
Definition aligned (d : gmap string (list F)) (n : nat) : Prop :=
  ∀ c, c ∈ columns → ∃ l, d !! c = Some l ∧ length l = n.

(** A row all five of whose fields [float(row[key])] reads. *)
Definition row_ok (row : gmap (option string) pyval) : Prop :=
  ∀ k, k ∈ columns → ∃ x, field_value row k = inr x.

(** The floats read at [key] from the rows where [float(row[key])] raises
    nothing, in the order of the rows. *)
Definition column_values (rows : list (gmap (option string) pyval)) (key : string) : list F :=
  omap (λ row, match field_value row key with inr x => Some x | inl _ => None end) rows.


(** The pairs (x sequence, y sequence) a figure plots, in the order of the
    [ax.plot] calls. *)
Definition series (fg : Figure) : list (list F * list F) :=
  (λ l, (xdata l, ydata l)) <$> lines fg.

(** The figures the three jobs have built when they call [savefig], from the
    lists they plot. *)
Definition pr_figure (rs ps : list F) : Figure :=
  mkFigure (8, 6) [mkLine2D rs ps "o-" "Precision-Recall" 2 (Some 6) None] []
           "Recall" "Precision" "GenUX Drift Detection: Precision-Recall Curve"
           (Some "0.3") true.
Definition threshold_figure (ths ps rs f1s : list F) : Figure :=
  mkFigure (10, 6)
           [mkLine2D ths ps "o-" "Precision" 2 None None;
            mkLine2D ths rs "s-" "Recall" 2 None None;
            mkLine2D ths f1s "^-" "F1" 2 None None]
           [mkHLine 0 "k" "-" "0.1"]
           "Threshold" "Score" "GenUX Drift Detection: Performance vs Threshold"
           (Some "0.3") true.
Definition roc_figure (fprs rs : list F) : Figure :=
  mkFigure (8, 6) [mkLine2D fprs rs "o-" "ROC (approx)" 2 (Some 6) (Some "red")] []
           "False Positive Rate (FPR)" "True Positive Rate (Recall)"
           "GenUX Drift Detection: FPR vs TPR" (Some "0.3") true.

(** The state a job leaves when all its calls return: the figure is open,
    the image is in the file, the line is printed. *)
Definition job_done (path : string) (fg : Figure) (s : State) : State :=
  set_stdout (λ out, out ++ ["Saved: " +:+ path])
    (set_fs (insert path (Png (mkImage fg 100 "tight")))
       (set_figs (cons fg) s)).

(** The table a load builds from a file all of whose rows it reads. *)
Definition loaded (records : list (list string)) : gmap string (list F) :=
  table (column_values (DictReader records) "threshold")
        (column_values (DictReader records) "precision")
        (column_values (DictReader records) "recall")
        (column_values (DictReader records) "f1")
        (column_values (DictReader records) "fpr").

(** A computation that leaves [data] as it is, whatever its outcome. *)
Definition keeps_data {A} (m : M A) : Prop := ∀ s, data (m s).1 = data s.

(** ** Proof tactics *)

(** Reduces the projections and updates of a state that is given by its
    five fields. *)
Ltac state_step :=
  cbn [data figs fs unwritable stdout set_data set_figs set_fs set_stdout].

(** Unfolds the calls of a job down to the state. *)
Ltac run_job :=
  unfold subplots, ax_plot, ax_axhline, ax_set_xlabel, ax_set_ylabel, ax_set_title,
    ax_grid, ax_legend, plt_close_all;
  unfold bind, on_ax, fig_savefig, print, modify, data_getitem, ret, raise;
  state_step.

(** ** Further notions *)

(** The three paths the script writes to. *)
Definition output_paths : list string := [pr_path; threshold_path; roc_path].

(** The field of a record that stands under the last header name equal to
    [c], among the names that have a field. *)
Fixpoint last_cell (fieldnames row : list string) (c : string) : option string :=
  match fieldnames, row with
  | k :: ks, v :: vs =>
      match last_cell ks vs c with
      | Some s => Some s
      | None => if decide (k = c) then Some v else None
      end
  | _, _ => None
  end.

(** A computation that leaves every file other than the three outputs as it
    is, whatever its outcome. *)
Definition writes_only_outputs {A} (m : M A) : Prop :=
  ∀ s p, p ∉ output_paths → fs (m s).1 !! p = fs s !! p.

(** * Properties *)

(** ** The dict of a row *)

Lemma cell_None_notin (h r : list string) (c : string) : c ∉ h → cell h r c = None.
Proof.
  revert r. induction h as [|k ks IH]; intros [|v vs] Hc; simpl; try reflexivity.
  case_decide as Hk.
  - subst. exfalso. apply Hc. left.
  - apply IH. intros Hin. apply Hc. by right.
Qed.

Lemma dict_zip_acc_None (h r : list string) (c : string) (d : gmap (option string) pyval) :
  cell h r c = None →
  foldl (λ d kv, <[Some kv.1 := PStr kv.2]> d) d (zip h r) !! Some c = d !! Some c.
Proof.
  revert r d. induction h as [|k ks IH]; intros [|v vs] d Hc; simpl in *; try reflexivity.
  case_decide as Hk; [discriminate|].
  rewrite IH by assumption. apply lookup_insert_ne. congruence.
Qed.

Lemma dict_zip_acc_Some (h r : list string) (c s : string) (d : gmap (option string) pyval) :
  NoDup h → cell h r c = Some s →
  foldl (λ d kv, <[Some kv.1 := PStr kv.2]> d) d (zip h r) !! Some c = Some (PStr s).
Proof.
  revert r d. induction h as [|k ks IH]; intros [|v vs] d Hnd Hc; simpl in *; try discriminate.
  apply NoDup_cons in Hnd as [Hk Hnd].
  case_decide as Hkc.
  - injection Hc as ->. subst k.
    rewrite dict_zip_acc_None by (by apply cell_None_notin).
    apply lookup_insert_eq.
  - by apply IH.
Qed.

Lemma restval_acc (ks : list string) (c : string) (d : gmap (option string) pyval) :
  foldl (λ d key, <[Some key := restval]> d) d ks !! Some c =
    if decide (c ∈ ks) then Some PNone else d !! Some c.
Proof.
  revert d. induction ks as [|k ks IH]; intros d; simpl.
  - destruct (decide (c ∈ [])) as [H%elem_of_nil|]; done.
  - rewrite IH. destruct (decide (c ∈ ks)) as [Hin|Hin].
    + rewrite decide_True by (by right). reflexivity.
    + destruct (decide (k = c)) as [->|Hne].
      * rewrite decide_True by left. apply lookup_insert_eq.
      * rewrite decide_False by (intros [?|?]%elem_of_cons; congruence).
        apply lookup_insert_ne. congruence.
Qed.

Lemma cell_Some_notin_drop (h r : list string) (c s : string) :
  NoDup h → cell h r c = Some s → c ∉ drop (length r) h.
Proof.
  revert r. induction h as [|k ks IH]; intros [|v vs] Hnd Hc; simpl in *; try discriminate.
  apply NoDup_cons in Hnd as [Hk Hnd].
  case_decide as Hkc.
  - subst k. intros Hin. apply Hk. by eapply subseteq_drop.
  - by apply IH.
Qed.

(** Under a header of distinct names, a field that stands under the name
    [c] is what the row's dict holds at [c]. *)
Lemma DictReader_row_cell (h r : list string) (c s : string) :
  NoDup h → cell h r c = Some s → DictReader_row h r !! Some c = Some (PStr s).
Proof.
  intros Hnd Hc. unfold DictReader_row, dict_zip.
  destruct (length h <? length r)%nat.
  - rewrite lookup_insert_ne by discriminate. by apply dict_zip_acc_Some.
  - destruct (length r <? length h)%nat.
    + rewrite restval_acc, decide_False by (by eapply cell_Some_notin_drop).
      by apply dict_zip_acc_Some.
    + by apply dict_zip_acc_Some.
Qed.


(** ** The monad *)

Lemma bind_inr {A B} (m : M A) (k : A → M B) s s' a :
  m s = (s', inr a) → bind m k s = k a s'.
Proof. intros H. unfold bind. by rewrite H. Qed.

Lemma bind_inl {A B} (m : M A) (k : A → M B) s s' e :
  m s = (s', inl e) → bind m k s = (s', inl e).
Proof. intros H. unfold bind. by rewrite H. Qed.

Lemma bind_inr_inv {A B} (m : M A) (k : A → M B) s s' b :
  bind m k s = (s', inr b) → ∃ s1 a, m s = (s1, inr a) ∧ k a s1 = (s', inr b).
Proof.
  unfold bind. destruct (m s) as [s1 [e|a]]; intros H; [discriminate|]. by exists s1, a.
Qed.


Lemma for_each_app {A} (body : A → M unit) (l1 l2 : list A) s :
  for_each body (l1 ++ l2) s =
    match for_each body l1 s with
    | (s1, inr _) => for_each body l2 s1
    | (s1, inl e) => (s1, inl e)
    end.
Proof.
  revert s. induction l1 as [|x l1 IH]; intros s; simpl; [reflexivity|].
  unfold bind. destruct (body x s) as [s1 [e|[]]]; simpl; [reflexivity|]. apply IH.
Qed.


(** ** The loop body *)

Lemma append_field_run row key s l :
  data s !! key = Some l →
  append_field row key s =
    match field_value row key with
    | inr x => (set_data (alter (λ l, l ++ [x]) key) s, inr tt)
    | inl e => (s, inl e)
    end.
Proof.
  intros Hl. unfold append_field, bind, data_getitem, row_getitem, field_value.
  rewrite Hl. destruct (row !! Some key) as [[s0| |l0]|]; try reflexivity.
  unfold float, ret. destruct (float_of_str s0); reflexivity.
Qed.

(** The loop body on a row, line by line: it stops at the first of the five
    fields whose [float(row[key])] raises, the lists of the fields before it
    already longer by one. *)
Lemma loop_body_run row s a b c d e :
  data s = table a b c d e →
  loop_body row s =
    match field_value row "threshold" with
    | inl err => (s, inl err)
    | inr x1 =>
    match field_value row "precision" with
    | inl err => (set_data (λ _, table (a ++ [x1]) b c d e) s, inl err)
    | inr x2 =>
    match field_value row "recall" with
    | inl err => (set_data (λ _, table (a ++ [x1]) (b ++ [x2]) c d e) s, inl err)
    | inr x3 =>
    match field_value row "f1" with
    | inl err => (set_data (λ _, table (a ++ [x1]) (b ++ [x2]) (c ++ [x3]) d e) s, inl err)
    | inr x4 =>
    match field_value row "fpr" with
    | inl err =>
        (set_data (λ _, table (a ++ [x1]) (b ++ [x2]) (c ++ [x3]) (d ++ [x4]) e) s, inl err)
    | inr x5 =>
        (set_data (λ _, table (a ++ [x1]) (b ++ [x2]) (c ++ [x3]) (d ++ [x4]) (e ++ [x5])) s,
         inr tt)
    end end end end end.
Proof.
  intros Hd. destruct s as [dt fg fsys uw out]. simpl in Hd. subst dt.
  unfold loop_body, bind.
  rewrite (append_field_run _ _ _ a) by reflexivity.
  destruct (field_value row "threshold") as [e1|x1]; [reflexivity|].
  rewrite (append_field_run _ _ _ b) by reflexivity.
  destruct (field_value row "precision") as [e2|x2]; [reflexivity|].
  rewrite (append_field_run _ _ _ c) by reflexivity.
  destruct (field_value row "recall") as [e3|x3]; [reflexivity|].
  rewrite (append_field_run _ _ _ d) by reflexivity.
  destruct (field_value row "f1") as [e4|x4]; [reflexivity|].
  rewrite (append_field_run _ _ _ e) by reflexivity.
  destruct (field_value row "fpr") as [e5|x5]; reflexivity.
Qed.

(** Every exception of [float(row[key])] is of the FormatError kind. *)
Lemma field_value_inl_FormatError row key e :
  field_value row key = inl e → is_FormatError e = true.
Proof.
  unfold field_value. destruct (row !! Some key) as [[s| |l]|]; try (intros [= <-]; reflexivity).
  destruct (float_of_str s); intros [= <-]. reflexivity.
Qed.

(** ** The loop *)

Lemma set_data_set_data f g (s : State) : set_data f (set_data g s) = set_data (λ d, f (g d)) s.
Proof. by destruct s. Qed.

Lemma set_data_id (s : State) d : data s = d → set_data (λ _, d) s = s.
Proof. destruct s; simpl. by intros ->. Qed.

Lemma elem_of_columns (P : string → Prop) :
  P "threshold" → P "precision" → P "recall" → P "f1" → P "fpr" →
  ∀ k, k ∈ columns → P k.
Proof.
  intros H1 H2 H3 H4 H5 k Hk. unfold columns in Hk.
  set_unfold. destruct Hk as [->|[->|[->|[->|[->|[]]]]]]; assumption.
Qed.

Lemma row_ok_fields row :
  row_ok row →
  ∃ x1 x2 x3 x4 x5,
    field_value row "threshold" = inr x1 ∧ field_value row "precision" = inr x2 ∧
    field_value row "recall" = inr x3 ∧ field_value row "f1" = inr x4 ∧
    field_value row "fpr" = inr x5.
Proof.
  intros H.
  destruct (H "threshold") as [x1 H1]; [in_columns|].
  destruct (H "precision") as [x2 H2]; [in_columns|].
  destruct (H "recall") as [x3 H3]; [in_columns|].
  destruct (H "f1") as [x4 H4]; [in_columns|].
  destruct (H "fpr") as [x5 H5]; [in_columns|].
  by exists x1, x2, x3, x4, x5.
Qed.

Lemma column_values_cons row rows key x :
  field_value row key = inr x →
  column_values (row :: rows) key = x :: column_values rows key.
Proof. intros H. unfold column_values. simpl. by rewrite H. Qed.

(** The loop over rows that are all read: each of the five lists grows by
    the floats of its column, in the order of the rows. *)
Lemma for_each_loop_ok rows : ∀ s a b c d e,
  data s = table a b c d e →
  Forall row_ok rows →
  for_each loop_body rows s =
    (set_data (λ _, table (a ++ column_values rows "threshold")
                          (b ++ column_values rows "precision")
                          (c ++ column_values rows "recall")
                          (d ++ column_values rows "f1")
                          (e ++ column_values rows "fpr")) s, inr tt).
Proof.
  induction rows as [|row rows IH]; intros s a b c d e Hd Hok.
  - simpl. unfold ret, column_values. simpl. rewrite !app_nil_r.
    by rewrite set_data_id.
  - apply Forall_cons in Hok as [Hrow Hok].
    destruct (row_ok_fields _ Hrow) as (x1 & x2 & x3 & x4 & x5 & H1 & H2 & H3 & H4 & H5).
    cbn [for_each]. unfold bind. rewrite (loop_body_run _ _ _ _ _ _ _ Hd), H1, H2, H3, H4, H5.
    rewrite (IH _ (a ++ [x1]) (b ++ [x2]) (c ++ [x3]) (d ++ [x4]) (e ++ [x5]))
      by (by destruct s || assumption).
    rewrite set_data_set_data.
    rewrite (column_values_cons _ _ _ _ H1), (column_values_cons _ _ _ _ H2),
      (column_values_cons _ _ _ _ H3), (column_values_cons _ _ _ _ H4),
      (column_values_cons _ _ _ _ H5).
    by rewrite <- !app_assoc.
Qed.

(** What the loop body leaves when it raises: an exception of the
    FormatError kind, raised by one of the five fields; the fields before it
    were read and their lists are longer by one; its list and the lists
    after it are as before. *)
Lemma loop_body_inl row s s' err a b c d e :
  data s = table a b c d e →
  loop_body row s = (s', inl err) →
  is_FormatError err = true ∧ ¬ row_ok row ∧
  ∃ a' b' c' d',
    s' = set_data (λ _, table a' b' c' d' e) s ∧
    ((a' = a ∧ b' = b ∧ c' = c ∧ d' = d ∧ field_value row "threshold" = inl err) ∨
     (∃ x1, a' = a ++ [x1] ∧ b' = b ∧ c' = c ∧ d' = d ∧
        field_value row "threshold" = inr x1 ∧
        field_value row "precision" = inl err) ∨
     (∃ x1 x2, a' = a ++ [x1] ∧ b' = b ++ [x2] ∧ c' = c ∧ d' = d ∧
        field_value row "threshold" = inr x1 ∧ field_value row "precision" = inr x2 ∧
        field_value row "recall" = inl err) ∨
     (∃ x1 x2 x3, a' = a ++ [x1] ∧ b' = b ++ [x2] ∧ c' = c ++ [x3] ∧ d' = d ∧
        field_value row "threshold" = inr x1 ∧ field_value row "precision" = inr x2 ∧
        field_value row "recall" = inr x3 ∧
        field_value row "f1" = inl err) ∨
     (∃ x1 x2 x3 x4, a' = a ++ [x1] ∧ b' = b ++ [x2] ∧ c' = c ++ [x3] ∧ d' = d ++ [x4] ∧
        field_value row "threshold" = inr x1 ∧ field_value row "precision" = inr x2 ∧
        field_value row "recall" = inr x3 ∧ field_value row "f1" = inr x4 ∧
        field_value row "fpr" = inl err)).
Proof.
  intros Hd. rewrite (loop_body_run _ _ _ _ _ _ _ Hd).
  assert (Hbad : ∀ k e0, k ∈ columns → field_value row k = inl e0 → ¬ row_ok row).
  { intros k e0 Hk He Hok. destruct (Hok k Hk) as [x Hx]. congruence. }
  destruct (field_value row "threshold") as [e1|x1] eqn:H1.
  { intros [= <- <-]. split; [by eapply field_value_inl_FormatError|].
    split; [refine (Hbad _ _ _ H1); in_columns|].
    exists a, b, c, d. split; [by rewrite set_data_id|]. by left. }
  destruct (field_value row "precision") as [e2|x2] eqn:H2.
  { intros [= <- <-]. split; [by eapply field_value_inl_FormatError|].
    split; [refine (Hbad _ _ _ H2); in_columns|].
    exists (a ++ [x1]), b, c, d. split; [done|]. right; left. by exists x1. }
  destruct (field_value row "recall") as [e3|x3] eqn:H3.
  { intros [= <- <-]. split; [by eapply field_value_inl_FormatError|].
    split; [refine (Hbad _ _ _ H3); in_columns|].
    exists (a ++ [x1]), (b ++ [x2]), c, d. split; [done|]. right; right; left. by exists x1, x2. }
  destruct (field_value row "f1") as [e4|x4] eqn:H4.
  { intros [= <- <-]. split; [by eapply field_value_inl_FormatError|].
    split; [refine (Hbad _ _ _ H4); in_columns|].
    exists (a ++ [x1]), (b ++ [x2]), (c ++ [x3]), d. split; [done|].
    right; right; right; left. by exists x1, x2, x3. }
  destruct (field_value row "fpr") as [e5|x5] eqn:H5.
  { intros [= <- <-]. split; [by eapply field_value_inl_FormatError|].
    split; [refine (Hbad _ _ _ H5); in_columns|].
    exists (a ++ [x1]), (b ++ [x2]), (c ++ [x3]), (d ++ [x4]). split; [done|].
    right; right; right; right. by exists x1, x2, x3, x4. }
  discriminate.
Qed.

Lemma loop_body_inr row s s' a b c d e :
  data s = table a b c d e → loop_body row s = (s', inr tt) → row_ok row.
Proof.
  intros Hd. rewrite (loop_body_run _ _ _ _ _ _ _ Hd).
  destruct (field_value row "threshold") as [e1|x1] eqn:H1; [discriminate|].
  destruct (field_value row "precision") as [e2|x2] eqn:H2; [discriminate|].
  destruct (field_value row "recall") as [e3|x3] eqn:H3; [discriminate|].
  destruct (field_value row "f1") as [e4|x4] eqn:H4; [discriminate|].
  destruct (field_value row "fpr") as [e5|x5] eqn:H5; [discriminate|].
  intros _. refine (elem_of_columns (λ k, ∃ x, field_value row k = inr x) _ _ _ _ _); eauto.
Qed.

(** A loop that ends without an exception read every row. *)
Lemma for_each_loop_inr_inv rows : ∀ s s' a b c d e,
  data s = table a b c d e →
  for_each loop_body rows s = (s', inr tt) →
  Forall row_ok rows.
Proof.
  induction rows as [|row rows IH]; intros s s' a b c d e Hd H; [constructor|].
  simpl in H. apply bind_inr_inv in H as (s1 & [] & Hrow & H).
  pose proof (loop_body_inr _ _ _ _ _ _ _ _ Hd Hrow) as Hok.
  constructor; [assumption|].
  destruct (row_ok_fields _ Hok) as (x1 & x2 & x3 & x4 & x5 & H1 & H2 & H3 & H4 & H5).
  rewrite (loop_body_run _ _ _ _ _ _ _ Hd), H1, H2, H3, H4, H5 in Hrow.
  injection Hrow as <-. eapply IH; [|exact H]. by destruct s.
Qed.


Lemma column_values_length rows key :
  Forall row_ok rows → key ∈ columns → length (column_values rows key) = length rows.
Proof.
  intros Hok Hkey. induction Hok as [|r rows Hr Hok IH]; [reflexivity|].
  destruct (Hr key Hkey) as [x Hx]. rewrite (column_values_cons _ _ _ _ Hx). simpl. by rewrite IH.
Qed.

(** ** The loader *)

Lemma load_run s :
  load s =
    match fs s !! csv_path with
    | Some (Text records) =>
        for_each loop_body (DictReader records) (set_data (λ _, table [] [] [] [] []) s)
    | Some (Png _) => (set_data (λ _, table [] [] [] [] []) s, inl (UnicodeDecodeError csv_path))
    | None => (set_data (λ _, table [] [] [] [] []) s, inl (FileNotFoundError csv_path))
    end.
Proof.
  unfold load, bind, init_data, modify, open_r. destruct s as [dt fg fsys uw out]. simpl.
  destruct (fsys !! csv_path) as [[records|img]|]; reflexivity.
Qed.

(** A load that ends without an exception: the file is a text, every row
    was read, and [data] holds the floats of the five columns. *)
Lemma load_inr_inv s s' :
  load s = (s', inr tt) →
  ∃ records,
    fs s !! csv_path = Some (Text records) ∧
    Forall row_ok (DictReader records) ∧
    s' = set_data (λ _, loaded records) s.
Proof.
  unfold loaded. rewrite load_run. destruct (fs s !! csv_path) as [[records|img]|]; try discriminate.
  intros H. exists records. split; [reflexivity|].
  assert (Hok : Forall row_ok (DictReader records)).
  { eapply for_each_loop_inr_inv; [|exact H]. by destruct s. }
  split; [assumption|].
  rewrite (for_each_loop_ok _ _ [] [] [] [] []) in H by (by destruct s || assumption).
  injection H as <-. by rewrite set_data_set_data.
Qed.

Lemma load_ok s records :
  fs s !! csv_path = Some (Text records) →
  Forall row_ok (DictReader records) →
  load s = (set_data (λ _, loaded records) s, inr tt).
Proof.
  intros Hf Hok. unfold loaded. rewrite load_run, Hf.
  rewrite (for_each_loop_ok _ _ [] [] [] [] []) by (by destruct s || assumption).
  by rewrite set_data_set_data.
Qed.

(** The load leaves the files, the output and the figures as they are,
    whatever its outcome. *)
Lemma for_each_loop_frame rows : ∀ s,
  (∃ a b c d e, data s = table a b c d e) →
  let s' := (for_each loop_body rows s).1 in
  fs s' = fs s ∧ stdout s' = stdout s ∧ figs s' = figs s ∧ unwritable s' = unwritable s.
Proof.
  induction rows as [|row rows IH]; intros s (a & b & c & d & e & Hd); [done|].
  cbn [for_each]. unfold bind.
  destruct (loop_body row s) as [s1 [err|[]]] eqn:Hrow.
  - apply (loop_body_inl _ _ _ _ _ _ _ _ _ Hd) in Hrow as (_ & _ & a' & b' & c' & d' & -> & _).
    by destruct s.
  - pose proof (loop_body_inr _ _ _ _ _ _ _ _ Hd Hrow) as Hok.
    destruct (row_ok_fields _ Hok) as (x1 & x2 & x3 & x4 & x5 & H1 & H2 & H3 & H4 & H5).
    rewrite (loop_body_run _ _ _ _ _ _ _ Hd), H1, H2, H3, H4, H5 in Hrow.
    injection Hrow as <-.
    destruct (IH (set_data (λ _, table (a ++ [x1]) (b ++ [x2]) (c ++ [x3]) (d ++ [x4])
                                       (e ++ [x5])) s)) as (? & ? & ? & ?).
    { eexists _, _, _, _, _. by destruct s. }
    by destruct s.
Qed.

Lemma load_frame s :
  let s' := (load s).1 in
  fs s' = fs s ∧ stdout s' = stdout s ∧ figs s' = figs s ∧ unwritable s' = unwritable s.
Proof.
  rewrite load_run. destruct (fs s !! csv_path) as [[records|img]|]; try by destruct s.
  destruct (for_each_loop_frame (DictReader records)
              (set_data (λ _, table [] [] [] [] []) s)) as (? & ? & ? & ?).
  { eexists _, _, _, _, _. by destruct s. }
  by destruct s.
Qed.

(** ** The render jobs *)

(** Job 1 on a table whose [recall] and [precision] are equally long: the
    only call that can raise is [savefig]. *)
Lemma job1_run s rs ps :
  data s !! "recall" = Some rs → data s !! "precision" = Some ps →
  length rs = length ps →
  job1 s =
    if decide (pr_path ∈ unwritable s)
    then (set_figs (cons (pr_figure rs ps)) s, inl (OSError pr_path))
    else (job_done pr_path (pr_figure rs ps) s, inr tt).
Proof.
  intros Hx Hy Hlen. destruct s as [dt fg fsys uw out]. simpl in Hx, Hy.
  unfold job1, job_done. run_job. rewrite Hx. state_step. rewrite Hy.
  rewrite decide_True by assumption. state_step. unfold pr_path.
  destruct (decide ("/workspaces/GENUX-FORGE/sensitivity-plot-pr.png" ∈ uw)); reflexivity.
Qed.

Lemma job2_run s ths ps rs f1s :
  data s !! "threshold" = Some ths → data s !! "precision" = Some ps →
  data s !! "recall" = Some rs → data s !! "f1" = Some f1s →
  length ths = length ps → length ths = length rs → length ths = length f1s →
  job2 s =
    if decide (threshold_path ∈ unwritable s)
    then (set_figs (cons (threshold_figure ths ps rs f1s)) s, inl (OSError threshold_path))
    else (job_done threshold_path (threshold_figure ths ps rs f1s) s, inr tt).
Proof.
  intros Ht Hp Hr Hf Hlp Hlr Hlf. destruct s as [dt fg fsys uw out]. simpl in Ht, Hp, Hr, Hf.
  unfold job2, job_done. run_job.
  rewrite Ht. state_step. rewrite Hp. rewrite decide_True by assumption. state_step.
  rewrite Ht. state_step. rewrite Hr. rewrite decide_True by assumption. state_step.
  rewrite Ht. state_step. rewrite Hf. rewrite decide_True by assumption. state_step.
  unfold threshold_path.
  destruct (decide ("/workspaces/GENUX-FORGE/sensitivity-plot-threshold.png" ∈ uw));
    reflexivity.
Qed.

Lemma job3_run s fprs rs :
  data s !! "fpr" = Some fprs → data s !! "recall" = Some rs →
  length fprs = length rs →
  job3 s =
    if decide (roc_path ∈ unwritable s)
    then (set_figs (cons (roc_figure fprs rs)) s, inl (OSError roc_path))
    else (job_done roc_path (roc_figure fprs rs) s, inr tt).
Proof.
  intros Hx Hy Hlen. destruct s as [dt fg fsys uw out]. simpl in Hx, Hy.
  unfold job3, job_done. run_job. rewrite Hx. state_step. rewrite Hy.
  rewrite decide_True by assumption. state_step. unfold roc_path.
  destruct (decide ("/workspaces/GENUX-FORGE/sensitivity-plot-roc.png" ∈ uw)); reflexivity.
Qed.

(** *** No call of the renderer writes to [data] *)

Lemma keeps_data_bind {A B} (m : M A) (k : A → M B) :
  keeps_data m → (∀ a, keeps_data (k a)) → keeps_data (bind m k).
Proof.
  intros Hm Hk s. unfold bind. specialize (Hm s).
  destruct (m s) as [s1 [e|a]]; simpl in *; [assumption|]. by rewrite Hk.
Qed.

Lemma keeps_data_ret {A} (a : A) : keeps_data (ret a).
Proof. by intros s. Qed.

Lemma keeps_data_raise {A} e : keeps_data (raise (A:=A) e).
Proof. by intros s. Qed.

Lemma keeps_data_getitem key : keeps_data (data_getitem key).
Proof. intros s. unfold data_getitem. by destruct (data s !! key). Qed.

Lemma keeps_data_subplots size : keeps_data (subplots size).
Proof. by intros []. Qed.

Lemma keeps_data_on_ax f : keeps_data (on_ax f).
Proof. intros [dt [|fg fgs] fsys uw out]; reflexivity. Qed.

Lemma keeps_data_plot xkey ykey fmt0 lbl lw ms col :
  keeps_data (ax_plot xkey ykey fmt0 lbl lw ms col).
Proof.
  unfold ax_plot. apply keeps_data_bind; [apply keeps_data_getitem|]. intros x.
  apply keeps_data_bind; [apply keeps_data_getitem|]. intros y.
  case_decide; [apply keeps_data_on_ax | apply keeps_data_raise].
Qed.

Lemma keeps_data_savefig path dpi bbox : keeps_data (fig_savefig path dpi bbox).
Proof.
  intros [dt [|fg fgs] fsys uw out]; unfold fig_savefig; simpl; [reflexivity|].
  by case_decide.
Qed.

Lemma keeps_data_print line : keeps_data (print line).
Proof. by intros []. Qed.

Lemma keeps_data_close_all : keeps_data plt_close_all.
Proof. by intros []. Qed.

Create HintDb keeps_data.
#[local] Hint Resolve keeps_data_ret keeps_data_raise keeps_data_getitem keeps_data_subplots
  keeps_data_on_ax keeps_data_plot keeps_data_savefig keeps_data_print
  keeps_data_close_all : keeps_data.

Lemma keeps_data_job1 : keeps_data job1.
Proof.
  unfold job1, ax_axhline, ax_set_xlabel, ax_set_ylabel, ax_set_title, ax_grid, ax_legend.
  repeat first [ solve [auto with keeps_data] | apply keeps_data_bind; [|intros ?] ].
Qed.

Lemma keeps_data_job2 : keeps_data job2.
Proof.
  unfold job2, ax_axhline, ax_set_xlabel, ax_set_ylabel, ax_set_title, ax_grid, ax_legend.
  repeat first [ solve [auto with keeps_data] | apply keeps_data_bind; [|intros ?] ].
Qed.

Lemma keeps_data_job3 : keeps_data job3.
Proof.
  unfold job3, ax_axhline, ax_set_xlabel, ax_set_ylabel, ax_set_title, ax_grid, ax_legend.
  repeat first [ solve [auto with keeps_data] | apply keeps_data_bind; [|intros ?] ].
Qed.

(** ** The whole run *)

Lemma bind_run {A B} (m : M A) (k : A → M B) s :
  bind m k s =
    match m s with
    | (s', inr a) => k a s'
    | (s', inl e) => (s', inl e)
    end.
Proof. reflexivity. Qed.

Lemma table_lookup_threshold a b c d e : table a b c d e !! "threshold" = Some a.
Proof. reflexivity. Qed.
Lemma table_lookup_precision a b c d e : table a b c d e !! "precision" = Some b.
Proof. reflexivity. Qed.
Lemma table_lookup_recall a b c d e : table a b c d e !! "recall" = Some c.
Proof. reflexivity. Qed.
Lemma table_lookup_f1 a b c d e : table a b c d e !! "f1" = Some d.
Proof. reflexivity. Qed.
Lemma table_lookup_fpr a b c d e : table a b c d e !! "fpr" = Some e.
Proof. reflexivity. Qed.

Lemma loaded_aligned records :
  Forall row_ok (DictReader records) → aligned (loaded records) (length (DictReader records)).
Proof.
  intros Hok. unfold aligned, loaded.
  refine (elem_of_columns (λ c, ∃ l, _ !! c = Some l ∧ length l = _) _ _ _ _ _);
    (eexists; split; [reflexivity|]; apply column_values_length; [assumption|in_columns]).
Qed.

Lemma data_job_done path fg (s : State) : data (job_done path fg s) = data s.
Proof. by destruct s. Qed.

Lemma unwritable_job_done path fg (s : State) :
  unwritable (job_done path fg s) = unwritable s.
Proof. by destruct s. Qed.

Lemma data_set_data f (s : State) : data (set_data f s) = f (data s).
Proof. by destruct s. Qed.

Lemma data_set_data_const d (s : State) : data (set_data (λ _, d) s) = d.
Proof. by destruct s. Qed.

Lemma unwritable_set_data f (s : State) : unwritable (set_data f s) = unwritable s.
Proof. by destruct s. Qed.

(** A run whose load reads every row: the three jobs run in order, each up
    to its [savefig]; the first path that cannot be written ends the run. *)
Lemma main_run st records :
  fs st !! csv_path = Some (Text records) →
  Forall row_ok (DictReader records) →
  let ths := column_values (DictReader records) "threshold" in
  let ps := column_values (DictReader records) "precision" in
  let rs := column_values (DictReader records) "recall" in
  let f1s := column_values (DictReader records) "f1" in
  let fprs := column_values (DictReader records) "fpr" in
  let s0 := set_data (λ _, loaded records) st in
  let s1 := job_done pr_path (pr_figure rs ps) s0 in
  let s2 := job_done threshold_path (threshold_figure ths ps rs f1s) s1 in
  let s3 := job_done roc_path (roc_figure fprs rs) s2 in
  load st = (s0, inr tt) ∧
  job1 s0 =
    (if decide (pr_path ∈ unwritable st)
     then (set_figs (cons (pr_figure rs ps)) s0, inl (OSError pr_path))
     else (s1, inr tt)) ∧
  job2 s1 =
    (if decide (threshold_path ∈ unwritable st)
     then (set_figs (cons (threshold_figure ths ps rs f1s)) s1, inl (OSError threshold_path))
     else (s2, inr tt)) ∧
  job3 s2 =
    (if decide (roc_path ∈ unwritable st)
     then (set_figs (cons (roc_figure fprs rs)) s2, inl (OSError roc_path))
     else (s3, inr tt)) ∧
  main st =
    if decide (pr_path ∈ unwritable st)
    then (set_figs (cons (pr_figure rs ps)) s0, inl (OSError pr_path))
    else if decide (threshold_path ∈ unwritable st)
    then (set_figs (cons (threshold_figure ths ps rs f1s)) s1, inl (OSError threshold_path))
    else if decide (roc_path ∈ unwritable st)
    then (set_figs (cons (roc_figure fprs rs)) s2, inl (OSError roc_path))
    else (set_figs (λ _, []) s3, inr tt).
Proof.
  intros Hf Hok ths ps rs f1s fprs s0 s1 s2 s3.
  assert (Hlen : ∀ k, k ∈ columns →
            length (column_values (DictReader records) k) = length (DictReader records))
    by (intros; by apply column_values_length).
  assert (Hths : length ths = length (DictReader records)) by (apply Hlen; in_columns).
  assert (Hps : length ps = length (DictReader records)) by (apply Hlen; in_columns).
  assert (Hrs : length rs = length (DictReader records)) by (apply Hlen; in_columns).
  assert (Hf1s : length f1s = length (DictReader records)) by (apply Hlen; in_columns).
  assert (Hfprs : length fprs = length (DictReader records)) by (apply Hlen; in_columns).
  assert (Hd0 : data s0 = table ths ps rs f1s fprs) by apply data_set_data.
  assert (Hd1 : data s1 = table ths ps rs f1s fprs) by (unfold s1; by rewrite data_job_done).
  assert (Hd2 : data s2 = table ths ps rs f1s fprs) by (unfold s2; by rewrite data_job_done).
  assert (Hu0 : unwritable s0 = unwritable st) by apply unwritable_set_data.
  assert (Hu1 : unwritable s1 = unwritable st) by (unfold s1; by rewrite unwritable_job_done).
  assert (Hu2 : unwritable s2 = unwritable st) by (unfold s2; by rewrite unwritable_job_done).
  assert (Hload : load st = (s0, inr tt)) by (by apply load_ok).
  assert (H1 : job1 s0 =
    (if decide (pr_path ∈ unwritable st)
     then (set_figs (cons (pr_figure rs ps)) s0, inl (OSError pr_path))
     else (s1, inr tt))).
  { rewrite <- Hu0. apply job1_run; rewrite ?Hd0; [reflexivity..|congruence]. }
  assert (H2 : job2 s1 =
    (if decide (threshold_path ∈ unwritable st)
     then (set_figs (cons (threshold_figure ths ps rs f1s)) s1, inl (OSError threshold_path))
     else (s2, inr tt))).
  { rewrite <- Hu1. apply job2_run; rewrite ?Hd1; [reflexivity..|congruence|congruence|congruence]. }
  assert (H3 : job3 s2 =
    (if decide (roc_path ∈ unwritable st)
     then (set_figs (cons (roc_figure fprs rs)) s2, inl (OSError roc_path))
     else (s3, inr tt))).
  { rewrite <- Hu2. apply job3_run; rewrite ?Hd2; [reflexivity..|congruence]. }
  repeat (split; [assumption|]).
  unfold main. rewrite (bind_inr _ _ _ _ _ Hload).
  rewrite bind_run, H1. destruct (decide (pr_path ∈ unwritable st)); [reflexivity|].
  rewrite bind_run, H2. destruct (decide (threshold_path ∈ unwritable st)); [reflexivity|].
  rewrite bind_run, H3. destruct (decide (roc_path ∈ unwritable st)); reflexivity.
Qed.

(** ** Records and rows *)

Lemma field_value_cell h r c s :
  NoDup h → cell h r c = Some s →
  field_value (DictReader_row h r) c =
    match float_of_str s with
    | Some x => inr x
    | None => inl (ValueError s)
    end.
Proof.
  intros Hnd Hc. unfold field_value. by rewrite (DictReader_row_cell _ _ _ _ Hnd Hc).
Qed.


Lemma cell_nil_row h c : cell h [] c = None.
Proof. by destruct h. Qed.



Lemma filter_not_blank (rows : list (list string)) :
  Forall (λ r, r ≠ []) rows → filter (λ r, r ≠ []) rows = rows.
Proof.
  induction 1 as [|r rows Hr _ IH]; [reflexivity|].
  rewrite filter_cons, decide_True by assumption. by rewrite IH.
Qed.



(** ** The claims *)


Lemma paths_distinct :
  pr_path ≠ threshold_path ∧ pr_path ≠ roc_path ∧ threshold_path ≠ roc_path.
Proof. repeat split; by apply String.eqb_neq. Qed.

Lemma main_load_inl st s e : load st = (s, inl e) → main st = (s, inl e).
Proof. intros H. unfold main. by rewrite (bind_inl _ _ _ _ _ H). Qed.

(** A run that ends without an exception: the file was read in full, the
    three paths could be written, and the final state is the one the three
    jobs leave in turn. *)
Lemma main_inr_inv st st' :
  main st = (st', inr tt) →
  ∃ records,
    fs st !! csv_path = Some (Text records) ∧
    Forall row_ok (DictReader records) ∧
    (pr_path ∉ unwritable st) ∧ (threshold_path ∉ unwritable st) ∧
    (roc_path ∉ unwritable st) ∧
    let ths := column_values (DictReader records) "threshold" in
    let ps := column_values (DictReader records) "precision" in
    let rs := column_values (DictReader records) "recall" in
    let f1s := column_values (DictReader records) "f1" in
    let fprs := column_values (DictReader records) "fpr" in
    st' = set_figs (λ _, [])
            (job_done roc_path (roc_figure fprs rs)
               (job_done threshold_path (threshold_figure ths ps rs f1s)
                  (job_done pr_path (pr_figure rs ps) (set_data (λ _, loaded records) st)))).
Proof.
  intros H.
  destruct (load st) as [s0 [e|[]]] eqn:Hload.
  { rewrite (main_load_inl _ _ _ Hload) in H. discriminate. }
  apply load_inr_inv in Hload as (records & Hf & Hok & _).
  exists records. split; [assumption|]. split; [assumption|].
  destruct (main_run st records Hf Hok) as (_ & _ & _ & _ & Hmain).
  rewrite Hmain in H.
  destruct (decide (pr_path ∈ unwritable st)); [discriminate|].
  destruct (decide (threshold_path ∈ unwritable st)); [discriminate|].
  destruct (decide (roc_path ∈ unwritable st)); [discriminate|].
  repeat (split; [assumption|]). by injection H as <-.
Qed.

(** C3. If no file stands at the path of the CSV, the run ends with a
    [FileNotFoundError], which is an [IOError]; the file system is the one
    before the run, so none of the three images is created or changed, and
    nothing is printed. *)
Theorem missing_input_file st :
  fs st !! csv_path = None →
  ∃ st', main st = (st', inl (FileNotFoundError csv_path)) ∧
    is_IOError (FileNotFoundError csv_path) = true ∧
    fs st' = fs st ∧ stdout st' = stdout st.
Proof.
  intros Hf. exists (set_data (λ _, table [] [] [] [] []) st).
  split; [|by destruct st].
  apply main_load_inl. by rewrite load_run, Hf.
Qed.

(** C4. After a load that ends without an exception the five lists of
    [data] have one common length; none of the three jobs changes [data],
    whatever state it starts from and whatever its outcome, and [data] at
    the end of the run is the table the load built. *)
Theorem loaded_table_aligned_and_read_only st s0 :
  load st = (s0, inr tt) →
  (∃ n, aligned (data s0) n) ∧
  keeps_data job1 ∧ keeps_data job2 ∧ keeps_data job3 ∧
  data (main st).1 = data s0.
Proof.
  intros Hload. split; [|split; [|split; [|split]]].
  - apply load_inr_inv in Hload as (records & _ & Hok & ->).
    exists (length (DictReader records)). rewrite data_set_data. by apply loaded_aligned.
  - apply keeps_data_job1.
  - apply keeps_data_job2.
  - apply keeps_data_job3.
  - unfold main. rewrite (bind_inr _ _ _ _ _ Hload).
    assert (Hk : keeps_data (job1 ;;; job2 ;;; job3 ;;; plt_close_all)).
    { repeat first
        [ solve [auto using keeps_data_job1, keeps_data_job2, keeps_data_job3,
                   keeps_data_close_all]
        | apply keeps_data_bind; [|intros ?] ]. }
    apply Hk.
Qed.

(** C6. A run that ends without an exception has printed exactly three
    lines after what was printed before, [Saved: ] followed by the path of
    the precision-recall image, of the threshold image and of the pseudo-ROC
    image, in this order, and each of the three paths holds an image. *)
Theorem saved_lines_in_job_order st st' :
  main st = (st', inr tt) →
  stdout st' =
    stdout st ++ ["Saved: " +:+ pr_path; "Saved: " +:+ threshold_path; "Saved: " +:+ roc_path] ∧
  (∃ img, fs st' !! pr_path = Some (Png img)) ∧
  (∃ img, fs st' !! threshold_path = Some (Png img)) ∧
  (∃ img, fs st' !! roc_path = Some (Png img)).
Proof.
  intros H. apply main_inr_inv in H as (records & _ & _ & _ & _ & _ & ->).
  destruct paths_distinct as (H12 & H13 & H23).
  destruct st as [dt fg fsys uw out]. unfold job_done. state_step.
  split; [by rewrite <- !app_assoc|].
  split; [|split]; eexists.
  - rewrite lookup_insert_ne, lookup_insert_ne by done. apply lookup_insert_eq.
  - rewrite lookup_insert_ne by done. apply lookup_insert_eq.
  - apply lookup_insert_eq.
Qed.

(** C7. After a load and a first job that end without an exception, the
    image of job 1 is in its file.  If job 2 then raises, the run ends there
    with that exception and the file system is the one job 1 left: the file
    of job 1 stays as written, the files of jobs 2 and 3 are as before the
    run.  If job 2 returns and job 3 raises, the run ends there and the file
    system is the one job 2 left: the files of jobs 1 and 2 stay as written
    and the file of job 3 is as before the run. *)
Theorem render_failure_keeps_earlier_files st s0 s1 :
  load st = (s0, inr tt) →
  job1 s0 = (s1, inr tt) →
  (∃ img1, fs s1 = <[pr_path := Png img1]> (fs st)) ∧
  (∀ s2 e, job2 s1 = (s2, inl e) →
     main st = (s2, inl e) ∧ fs s2 = fs s1 ∧
     fs s2 !! threshold_path = fs st !! threshold_path ∧
     fs s2 !! roc_path = fs st !! roc_path ∧
     stdout s2 = stdout st ++ ["Saved: " +:+ pr_path]) ∧
  (∀ s2 s3 e, job2 s1 = (s2, inr tt) → job3 s2 = (s3, inl e) →
     main st = (s3, inl e) ∧ fs s3 = fs s2 ∧
     (∃ img2, fs s2 = <[threshold_path := Png img2]> (fs s1)) ∧
     fs s3 !! roc_path = fs st !! roc_path ∧
     stdout s3 = stdout st ++ ["Saved: " +:+ pr_path; "Saved: " +:+ threshold_path]).
Proof.
  intros Hload H1.
  destruct paths_distinct as (H12 & H13 & H23).
  pose proof Hload as Hinv. apply load_inr_inv in Hinv as (records & Hf & Hok & ->).
  destruct (main_run st records Hf Hok) as (_ & Hj1 & Hj2 & Hj3 & Hmain).
  rewrite Hj1 in H1. rewrite Hmain.
  destruct (decide (pr_path ∈ unwritable st)); [discriminate|].
  injection H1 as <-. split; [|split].
  - eexists. by destruct st.
  - intros s2 e. rewrite Hj2.
    destruct (decide (threshold_path ∈ unwritable st)); [|discriminate].
    intros [= <- <-]. split; [reflexivity|]. destruct st as [dt fg fsys uw out].
    unfold job_done. state_step.
    by rewrite !lookup_insert_ne by done.
  - intros s2 s3 e. rewrite Hj2.
    destruct (decide (threshold_path ∈ unwritable st)); [discriminate|].
    intros [= <-]. rewrite Hj3.
    destruct (decide (roc_path ∈ unwritable st)); [|discriminate].
    intros [= <- <-]. split; [reflexivity|]. destruct st as [dt fg fsys uw out].
    unfold job_done. state_step.
    split; [reflexivity|]. split; [by eexists|].
    rewrite !lookup_insert_ne by done. by rewrite <- !app_assoc.
Qed.

(** C8. In a run that ends without an exception, with [data] holding the
    lists threshold, precision, recall, f1 and fpr: the image of job 1 plots
    the one series (recall, precision) and no horizontal line; the image of
    job 2 plots the three series (threshold, precision), (threshold, recall)
    and (threshold, f1) and one horizontal line at y = 0; the image of job 3
    plots the one series (fpr, recall) and no horizontal line; the three
    images are in three different files. *)
Theorem jobs_plot_specified_columns st st' :
  main st = (st', inr tt) →
  ∃ ths ps rs f1s fprs img1 img2 img3,
    data st' = table ths ps rs f1s fprs ∧
    fs st' !! pr_path = Some (Png img1) ∧
    series (img_fig img1) = [(rs, ps)] ∧ hlines (img_fig img1) = [] ∧
    fs st' !! threshold_path = Some (Png img2) ∧
    series (img_fig img2) = [(ths, ps); (ths, rs); (ths, f1s)] ∧
    hy <$> hlines (img_fig img2) = [0%Z] ∧
    fs st' !! roc_path = Some (Png img3) ∧
    series (img_fig img3) = [(fprs, rs)] ∧ hlines (img_fig img3) = [] ∧
    pr_path ≠ threshold_path ∧ pr_path ≠ roc_path ∧ threshold_path ≠ roc_path.
Proof.
  intros H. apply main_inr_inv in H as (records & _ & _ & _ & _ & _ & ->).
  destruct paths_distinct as (H12 & H13 & H23).
  eexists _, _, _, _, _, _, _, _.
  destruct st as [dt fg fsys uw out]. unfold job_done. state_step.
  split; [reflexivity|].
  split; [rewrite lookup_insert_ne, lookup_insert_ne by done; apply lookup_insert_eq|].
  split; [reflexivity|]. split; [reflexivity|].
  split; [rewrite lookup_insert_ne by done; apply lookup_insert_eq|].
  split; [reflexivity|]. split; [reflexivity|].
  split; [apply lookup_insert_eq|].
  split; [reflexivity|]. split; [reflexivity|]. done.
Qed.

(** C10. For a CSV of one record, the header, and no data row, and three
    output paths that can be written: the run ends without an exception,
    [data] holds five empty lists, each of the three files holds the image
    of its job with empty series, and the three [Saved: ] lines are
    printed.  The header may be any record. *)
Theorem header_only_csv st fieldnames :
  fs st !! csv_path = Some (Text [fieldnames]) →
  pr_path ∉ unwritable st → threshold_path ∉ unwritable st → roc_path ∉ unwritable st →
  ∃ st', main st = (st', inr tt) ∧
    load st = (set_data (λ _, table [] [] [] [] []) st, inr tt) ∧
    data st' = table [] [] [] [] [] ∧
    fs st' = <[roc_path := Png (mkImage (roc_figure [] []) 100 "tight")]>
               (<[threshold_path := Png (mkImage (threshold_figure [] [] [] []) 100 "tight")]>
                  (<[pr_path := Png (mkImage (pr_figure [] []) 100 "tight")]> (fs st))) ∧
    stdout st' =
      stdout st ++ ["Saved: " +:+ pr_path; "Saved: " +:+ threshold_path; "Saved: " +:+ roc_path].
Proof.
  intros Hf H1 H2 H3.
  assert (Hok : Forall row_ok (DictReader [fieldnames])) by constructor.
  destruct (main_run st _ Hf Hok) as (Hload & _ & _ & _ & Hmain).
  rewrite !decide_False in Hmain by assumption.
  eexists. split; [exact Hmain|]. split; [exact Hload|].
  destruct st as [dt fg fsys uw out]. unfold job_done. state_step.
  split; [reflexivity|]. split; [reflexivity|]. by rewrite <- !app_assoc.
Qed.

(** Two loops over rows that give the same five [float(row[key])] pairwise,
    started on the same table, leave the same table and the same outcome. *)
Lemma for_each_loop_agree rows1 rows2 :
  Forall2 (λ row1 row2, ∀ c, c ∈ columns → field_value row1 c = field_value row2 c)
          rows1 rows2 →
  ∀ s1 s2 a b c d e,
    data s1 = table a b c d e → data s2 = table a b c d e →
    data (for_each loop_body rows1 s1).1 = data (for_each loop_body rows2 s2).1 ∧
    (for_each loop_body rows1 s1).2 = (for_each loop_body rows2 s2).2.
Proof.
  induction 1 as [|row1 row2 rows1 rows2 Hrow _ IH]; intros s1 s2 a b c d e Hd1 Hd2.
  - simpl. by rewrite Hd1, Hd2.
  - cbn [for_each]. rewrite !bind_run.
    rewrite (loop_body_run _ _ _ _ _ _ _ Hd1), (loop_body_run _ _ _ _ _ _ _ Hd2).
    rewrite <- !Hrow by in_columns.
    destruct (field_value row1 "threshold") as [?|f];
      [cbn [fst snd]; by rewrite Hd1, Hd2|].
    destruct (field_value row1 "precision") as [?|f0];
      [cbn [fst snd]; by rewrite !data_set_data|].
    destruct (field_value row1 "recall") as [?|f1];
      [cbn [fst snd]; by rewrite !data_set_data|].
    destruct (field_value row1 "f1") as [?|f2];
      [cbn [fst snd]; by rewrite !data_set_data|].
    destruct (field_value row1 "fpr") as [?|f3];
      [cbn [fst snd]; by rewrite !data_set_data|].
    apply (IH _ _ (a ++ [f]) (b ++ [f0]) (c ++ [f1]) (d ++ [f2]) (e ++ [f3]));
      by rewrite data_set_data.
Qed.


(** ** A load that stops at a row *)

Lemma loop_from_init rows st :
  Forall row_ok rows →
  for_each loop_body rows (set_data (λ _, table [] [] [] [] []) st) =
    (set_data (λ _, table (column_values rows "threshold") (column_values rows "precision")
                          (column_values rows "recall") (column_values rows "f1")
                          (column_values rows "fpr")) st, inr tt).
Proof.
  intros Hok.
  rewrite (for_each_loop_ok _ _ [] [] [] [] []) by (by rewrite ?data_set_data).
  by rewrite set_data_set_data.
Qed.





(** * Further properties of the script *)

(** ** What [row[key]] holds, whatever the header *)

Lemma dict_zip_acc_last (h r : list string) (c : string) (d : gmap (option string) pyval) :
  foldl (λ d kv, <[Some kv.1 := PStr kv.2]> d) d (zip h r) !! Some c =
    match last_cell h r c with
    | Some s => Some (PStr s)
    | None => d !! Some c
    end.
Proof.
  revert r d. induction h as [|k ks IH]; intros [|v vs] d; try reflexivity.
  cbn [zip zip_with foldl last_cell fst snd]. rewrite IH.
  destruct (last_cell ks vs c) as [s|]; [reflexivity|].
  destruct (decide (k = c)) as [->|Hne].
  - apply lookup_insert_eq.
  - apply lookup_insert_ne. congruence.
Qed.



(** The dict of a row at a name: [None] if the name stands in the header
    beyond the end of the row; else the field under its last occurrence;
    else nothing. *)
Lemma DictReader_row_lookup (h r : list string) (c : string) :
  DictReader_row h r !! Some c =
    if decide (c ∈ drop (length r) h) then Some PNone
    else match last_cell h r c with
         | Some s => Some (PStr s)
         | None => None
         end.
Proof.
  unfold DictReader_row, dict_zip.
  destruct (Nat.ltb_spec (length h) (length r)) as [Hlt|Hge].
  - rewrite (drop_ge h) by lia. rewrite decide_False by (by intros ?%elem_of_nil).
    rewrite lookup_insert_ne by discriminate. by rewrite dict_zip_acc_last, lookup_empty.
  - destruct (Nat.ltb_spec (length r) (length h)) as [Hlt|Hge'].
    + rewrite restval_acc. destruct (decide (c ∈ drop (length r) h)); [reflexivity|].
      by rewrite dict_zip_acc_last, lookup_empty.
    + rewrite (drop_ge h) by lia. rewrite decide_False by (by intros ?%elem_of_nil).
      by rewrite dict_zip_acc_last, lookup_empty.
Qed.


(** X1. The value of [float(row[key])] for any header and record, names
    repeated or not, row short or long: a [TypeError] if the name stands in
    the header beyond the end of the row; else [float] of the field under
    the last occurrence of the name; else a [KeyError]. *)
Theorem field_value_of_record (h r : list string) (c : string) :
  field_value (DictReader_row h r) c =
    if decide (c ∈ drop (length r) h) then inl TypeError
    else match last_cell h r c with
         | Some s =>
             match float_of_str s with
             | Some x => inr x
             | None => inl (ValueError s)
             end
         | None => inl (KeyError c)
         end.
Proof.
  unfold field_value. rewrite DictReader_row_lookup.
  destruct (decide (c ∈ drop (length r) h)); [reflexivity|].
  by destruct (last_cell h r c).
Qed.


(** ** The load, whatever its outcome *)

(** The state after a body that returns. *)
Lemma loop_body_inr_state row s s' a b c d e :
  data s = table a b c d e → loop_body row s = (s', inr tt) →
  ∃ x1 x2 x3 x4 x5,
    s' = set_data (λ _, table (a ++ [x1]) (b ++ [x2]) (c ++ [x3]) (d ++ [x4]) (e ++ [x5])) s.
Proof.
  intros Hd Hrow. pose proof (loop_body_inr _ _ _ _ _ _ _ _ Hd Hrow) as Hok.
  destruct (row_ok_fields _ Hok) as (x1 & x2 & x3 & x4 & x5 & H1 & H2 & H3 & H4 & H5).
  rewrite (loop_body_run _ _ _ _ _ _ _ Hd), H1, H2, H3, H4, H5 in Hrow.
  injection Hrow as <-. by exists x1, x2, x3, x4, x5.
Qed.

(** The loop started on five equally long lists ends, with or without an
    exception, on five lists of which none is longer than the one of a
    column read before it, and the first is at most one longer than the
    last; they are equally long when no exception was raised. *)
Lemma for_each_loop_shape rows : ∀ s a b c d e,
  data s = table a b c d e →
  length a = length b → length b = length c → length c = length d → length d = length e →
  ∃ a' b' c' d' e',
    data (for_each loop_body rows s).1 = table a' b' c' d' e' ∧
    length e' ≤ length d' ∧ length d' ≤ length c' ∧ length c' ≤ length b' ∧
    length b' ≤ length a' ∧ length a' ≤ S (length e') ∧
    ((for_each loop_body rows s).2 = inr tt → length a' = length e').
Proof.
  induction rows as [|row rows IH]; intros s a b c d e Hd Hab Hbc Hcd Hde.
  - exists a, b, c, d, e. simpl. split; [assumption|]. repeat split; lia.
  - cbn [for_each]. rewrite bind_run.
    destruct (loop_body row s) as [s1 [err|[]]] eqn:Hrow.
    + destruct (loop_body_inl _ _ _ _ _ _ _ _ _ Hd Hrow)
        as (_ & _ & a' & b' & c' & d' & -> & Hcases).
      exists a', b', c', d', e. cbn [fst snd]. rewrite data_set_data_const.
      split; [reflexivity|].
      destruct Hcases as [(-> & -> & -> & -> & _)
        |[(x1 & -> & -> & -> & -> & _)
        |[(x1 & x2 & -> & -> & -> & -> & _)
        |[(x1 & x2 & x3 & -> & -> & -> & -> & _)
        |(x1 & x2 & x3 & x4 & -> & -> & -> & -> & _)]]]];
        rewrite ?length_app; simpl; repeat split; try lia; discriminate.
    + destruct (loop_body_inr_state _ _ _ _ _ _ _ _ Hd Hrow) as (x1 & x2 & x3 & x4 & x5 & ->).
      apply (IH _ (a ++ [x1]) (b ++ [x2]) (c ++ [x3]) (d ++ [x4]) (e ++ [x5]));
        [apply data_set_data_const|rewrite !length_app; simpl; lia..].
Qed.

(** X2. Whatever the file system holds at the path of the CSV and whatever
    the outcome of the load, [data] afterwards holds exactly the five lists,
    none longer than the list of a column read before it and the first at
    most one entry longer than the last: a load that raises leaves the lists
    at most one row out of step. *)
Theorem load_leaves_lists_in_step st :
  ∃ ths ps rs f1s fprs,
    data (load st).1 = table ths ps rs f1s fprs ∧
    length fprs ≤ length f1s ∧ length f1s ≤ length rs ∧ length rs ≤ length ps ∧
    length ps ≤ length ths ∧ length ths ≤ S (length fprs).
Proof.
  rewrite load_run. destruct (fs st !! csv_path) as [[records|img]|].
  - destruct (for_each_loop_shape (DictReader records)
                (set_data (λ _, table [] [] [] [] []) st) [] [] [] [] [])
      as (a & b & c & d & e & Hd & H1 & H2 & H3 & H4 & H5 & _);
      [apply data_set_data_const|reflexivity..|].
    by exists a, b, c, d, e.
  - exists [], [], [], [], []. cbn [fst]. rewrite data_set_data_const. simpl.
    split; [reflexivity|]. repeat split; lia.
  - exists [], [], [], [], []. cbn [fst]. rewrite data_set_data_const. simpl.
    split; [reflexivity|]. repeat split; lia.
Qed.

(** X3. The load reads: whatever its outcome, it leaves the file system,
    the printed lines, the open figures and the unwritable paths as they
    were. *)
Theorem load_changes_only_data st :
  fs (load st).1 = fs st ∧ stdout (load st).1 = stdout st ∧
  figs (load st).1 = figs st ∧ unwritable (load st).1 = unwritable st.
Proof.
  rewrite load_run. destruct (fs st !! csv_path) as [[records|img]|]; try by destruct st.
  destruct (for_each_loop_frame (DictReader records)
              (set_data (λ _, table [] [] [] [] []) st)) as (Hfs & Hout & Hfigs & Hunw).
  { exists [], [], [], [], []. apply data_set_data_const. }
  rewrite Hfs, Hout, Hfigs, Hunw. by destruct st.
Qed.





Lemma table_inj a b c d e a' b' c' d' e' :
  table a b c d e = table a' b' c' d' e' →
  a = a' ∧ b = b' ∧ c = c' ∧ d = d' ∧ e = e'.
Proof.
  intros H.
  pose proof (f_equal (λ m, m !! "threshold") H) as H1.
  pose proof (f_equal (λ m, m !! "precision") H) as H2.
  pose proof (f_equal (λ m, m !! "recall") H) as H3.
  pose proof (f_equal (λ m, m !! "f1") H) as H4.
  pose proof (f_equal (λ m, m !! "fpr") H) as H5.
  cbv beta in *.
  rewrite !table_lookup_threshold in H1. rewrite !table_lookup_precision in H2.
  rewrite !table_lookup_recall in H3. rewrite !table_lookup_f1 in H4.
  rewrite !table_lookup_fpr in H5. by simplify_eq.
Qed.



(** ** Records longer than the header *)





(** Two files whose data rows that are not blank give pairwise the same
    five [float(row[key])] load to the same [data] with the same outcome. *)
Lemma load_rows_agree st1 st2 h1 rows1 h2 rows2 :
  fs st1 !! csv_path = Some (Text (h1 :: rows1)) →
  fs st2 !! csv_path = Some (Text (h2 :: rows2)) →
  Forall2 (λ r1 r2, ∀ c, c ∈ columns →
             field_value (DictReader_row h1 r1) c = field_value (DictReader_row h2 r2) c)
          (filter (λ r, r ≠ []) rows1) (filter (λ r, r ≠ []) rows2) →
  data (load st1).1 = data (load st2).1 ∧ (load st1).2 = (load st2).2.
Proof.
  intros Hf1 Hf2 Hrows. rewrite !load_run, Hf1, Hf2. unfold DictReader.
  apply (for_each_loop_agree _ _) with (a := []) (b := []) (c := []) (d := []) (e := []);
    [|by rewrite data_set_data_const..].
  by apply Forall2_fmap.
Qed.


(** ** Rows added at the end of the file *)

(** The loop on the same rows, started on a table and on the same table
    with a list put in front of each of its lists: the outcome is the same
    and the lists at the end differ by the lists put in front. *)
Lemma for_each_loop_prefix rows : ∀ s s0 a b c d e a0 b0 c0 d0 e0,
  data s0 = table a0 b0 c0 d0 e0 →
  data s = table (a ++ a0) (b ++ b0) (c ++ c0) (d ++ d0) (e ++ e0) →
  ∃ a' b' c' d' e',
    data (for_each loop_body rows s0).1 = table a' b' c' d' e' ∧
    data (for_each loop_body rows s).1 = table (a ++ a') (b ++ b') (c ++ c') (d ++ d') (e ++ e') ∧
    (for_each loop_body rows s).2 = (for_each loop_body rows s0).2.
Proof.
  induction rows as [|row rows IH]; intros s s0 a b c d e a0 b0 c0 d0 e0 Hd0 Hd.
  - by exists a0, b0, c0, d0, e0.
  - cbn [for_each]. rewrite !bind_run.
    rewrite (loop_body_run _ _ _ _ _ _ _ Hd0), (loop_body_run _ _ _ _ _ _ _ Hd).
    destruct (field_value row "threshold") as [?|x1].
    { exists a0, b0, c0, d0, e0. by cbn [fst snd]. }
    destruct (field_value row "precision") as [?|x2].
    { exists (a0 ++ [x1]), b0, c0, d0, e0. cbn [fst snd].
      by rewrite !data_set_data_const, !app_assoc. }
    destruct (field_value row "recall") as [?|x3].
    { exists (a0 ++ [x1]), (b0 ++ [x2]), c0, d0, e0. cbn [fst snd].
      by rewrite !data_set_data_const, !app_assoc. }
    destruct (field_value row "f1") as [?|x4].
    { exists (a0 ++ [x1]), (b0 ++ [x2]), (c0 ++ [x3]), d0, e0. cbn [fst snd].
      by rewrite !data_set_data_const, !app_assoc. }
    destruct (field_value row "fpr") as [?|x5].
    { exists (a0 ++ [x1]), (b0 ++ [x2]), (c0 ++ [x3]), (d0 ++ [x4]), e0. cbn [fst snd].
      by rewrite !data_set_data_const, !app_assoc. }
    apply (IH _ _ a b c d e (a0 ++ [x1]) (b0 ++ [x2]) (c0 ++ [x3]) (d0 ++ [x4]) (e0 ++ [x5]));
      rewrite data_set_data_const, ?app_assoc; reflexivity.
Qed.

(** X8. Rows added at the end of a CSV that loads only add to the lists:
    if the load of a file returns, the load of that file followed by further
    rows has the outcome of the load of the header with the further rows
    alone, and leaves in each of the five lists the entries of the first
    load followed by the entries of the second. *)
Theorem appended_rows_extend_lists st1 st2 st12 h rows1 rows2 s1 :
  fs st1 !! csv_path = Some (Text (h :: rows1)) →
  fs st2 !! csv_path = Some (Text (h :: rows2)) →
  fs st12 !! csv_path = Some (Text (h :: rows1 ++ rows2)) →
  load st1 = (s1, inr tt) →
  (load st12).2 = (load st2).2 ∧
  ∀ c, c ∈ columns →
    ∃ l1 l2, data s1 !! c = Some l1 ∧ data (load st2).1 !! c = Some l2 ∧
             data (load st12).1 !! c = Some (l1 ++ l2).
Proof.
  intros Hf1 Hf2 Hf12 Hload1.
  apply load_inr_inv in Hload1 as (records & Hf1' & Hok & ->).
  rewrite Hf1 in Hf1'. injection Hf1' as <-.
  rewrite !load_run, Hf2, Hf12. unfold DictReader in *.
  rewrite filter_app, fmap_app, for_each_app, (loop_from_init _ _ Hok).
  set (rows1' := DictReader_row h <$> filter (λ r, r ≠ []) rows1) in *.
  set (rows2' := DictReader_row h <$> filter (λ r, r ≠ []) rows2).
  destruct (for_each_loop_prefix rows2'
              (set_data (λ _, table (column_values rows1' "threshold")
                                    (column_values rows1' "precision")
                                    (column_values rows1' "recall")
                                    (column_values rows1' "f1")
                                    (column_values rows1' "fpr")) st12)
              (set_data (λ _, table [] [] [] [] []) st2)
              (column_values rows1' "threshold") (column_values rows1' "precision")
              (column_values rows1' "recall") (column_values rows1' "f1")
              (column_values rows1' "fpr") [] [] [] [] [])
    as (a' & b' & c' & d' & e' & Hd2 & Hd12 & Hout);
    [apply data_set_data_const|by rewrite data_set_data_const, !app_nil_r|].
  split; [exact Hout|].
  rewrite Hd2, Hd12, data_set_data_const. unfold loaded. fold rows1'.
  refine (elem_of_columns (λ c, ∃ l1 l2, _ !! c = Some l1 ∧ _ !! c = Some l2 ∧ _ !! c = _)
            _ _ _ _ _); by eexists _, _.
Qed.

(** ** The whole run, whatever its outcome *)



(** *** The only files a run writes *)

Lemma writes_only_outputs_bind {A B} (m : M A) (k : A → M B) :
  writes_only_outputs m → (∀ a, writes_only_outputs (k a)) → writes_only_outputs (bind m k).
Proof.
  intros Hm Hk s p Hp. unfold bind. specialize (Hm s p Hp).
  destruct (m s) as [s1 [e|a]]; simpl in *; [assumption|]. by rewrite Hk.
Qed.

Lemma writes_only_outputs_keeps_fs {A} (m : M A) :
  (∀ s, fs (m s).1 = fs s) → writes_only_outputs m.
Proof. intros H s p _. by rewrite H. Qed.

Lemma keeps_fs_getitem key s : fs (data_getitem key s).1 = fs s.
Proof. unfold data_getitem. by destruct (data s !! key). Qed.

Lemma keeps_fs_on_ax f s : fs (on_ax f s).1 = fs s.
Proof. by destruct s as [dt [|fg fgs] fsys uw out]. Qed.

Lemma writes_only_outputs_plot xkey ykey fmt0 lbl lw ms col :
  writes_only_outputs (ax_plot xkey ykey fmt0 lbl lw ms col).
Proof.
  unfold ax_plot.
  apply writes_only_outputs_bind;
    [apply writes_only_outputs_keeps_fs, keeps_fs_getitem|]. intros x.
  apply writes_only_outputs_bind;
    [apply writes_only_outputs_keeps_fs, keeps_fs_getitem|]. intros y.
  apply writes_only_outputs_keeps_fs. intros s.
  case_decide; [apply keeps_fs_on_ax|reflexivity].
Qed.

Lemma writes_only_outputs_savefig path dpi bbox :
  path ∈ output_paths → writes_only_outputs (fig_savefig path dpi bbox).
Proof.
  intros Hpath [dt [|fg fgs] fsys uw out] p Hp; unfold fig_savefig; simpl; [reflexivity|].
  case_decide; [reflexivity|]. simpl. apply lookup_insert_ne. by intros ->.
Qed.

Lemma writes_only_outputs_job1 : writes_only_outputs job1.
Proof.
  unfold job1, ax_axhline, ax_set_xlabel, ax_set_ylabel, ax_set_title, ax_grid, ax_legend.
  repeat first
    [ apply writes_only_outputs_plot
    | apply writes_only_outputs_savefig; unfold output_paths; repeat constructor
    | apply writes_only_outputs_keeps_fs; first [apply keeps_fs_on_ax | by intros []]
    | apply writes_only_outputs_bind; [|intros ?] ].
Qed.

Lemma writes_only_outputs_job2 : writes_only_outputs job2.
Proof.
  unfold job2, ax_axhline, ax_set_xlabel, ax_set_ylabel, ax_set_title, ax_grid, ax_legend.
  repeat first
    [ apply writes_only_outputs_plot
    | apply writes_only_outputs_savefig; unfold output_paths; repeat constructor
    | apply writes_only_outputs_keeps_fs; first [apply keeps_fs_on_ax | by intros []]
    | apply writes_only_outputs_bind; [|intros ?] ].
Qed.

Lemma writes_only_outputs_job3 : writes_only_outputs job3.
Proof.
  unfold job3, ax_axhline, ax_set_xlabel, ax_set_ylabel, ax_set_title, ax_grid, ax_legend.
  repeat first
    [ apply writes_only_outputs_plot
    | apply writes_only_outputs_savefig; unfold output_paths; repeat constructor
    | apply writes_only_outputs_keeps_fs; first [apply keeps_fs_on_ax | by intros []]
    | apply writes_only_outputs_bind; [|intros ?] ].
Qed.

Lemma csv_path_not_output : csv_path ∉ output_paths.
Proof.
  unfold output_paths. intros H.
  repeat (apply elem_of_cons in H as [H|H];
          [by apply String.eqb_neq in H|]).
  by apply elem_of_nil in H.
Qed.

Lemma writes_only_outputs_main : writes_only_outputs main.
Proof.
  unfold main. apply writes_only_outputs_bind.
  - apply writes_only_outputs_keeps_fs. intros s. apply load_frame.
  - intros _. repeat first
      [ apply writes_only_outputs_job1 | apply writes_only_outputs_job2
      | apply writes_only_outputs_job3
      | apply writes_only_outputs_keeps_fs; by intros []
      | apply writes_only_outputs_bind; [|intros ?] ].
Qed.

(** X10. Whatever the outcome of the run, every path other than the three
    output paths holds at the end what it held at the start; in particular
    the CSV is never changed. *)
Theorem run_writes_only_outputs st :
  (∀ p, p ∉ output_paths → fs (main st).1 !! p = fs st !! p) ∧
  fs (main st).1 !! csv_path = fs st !! csv_path.
Proof.
  split.
  - intros p Hp. by apply writes_only_outputs_main.
  - apply writes_only_outputs_main, csv_path_not_output.
Qed.

(** ** Runs compared *)

Lemma three_inserts_twice {V} (m : gmap string V) p1 p2 p3 x y z :
  <[p3 := z]> (<[p2 := y]> (<[p1 := x]> (<[p3 := z]> (<[p2 := y]> (<[p1 := x]> m))))) =
  <[p3 := z]> (<[p2 := y]> (<[p1 := x]> m)).
Proof.
  apply map_eq. intros p. rewrite !lookup_insert.
  repeat case_decide; reflexivity.
Qed.

(** X11. A second run after a run that returned also returns; it writes
    the same three images over the first ones, so the file system is the one
    the first run left, [data] holds the same lists, and three more
    [Saved: ] lines are printed. *)
Theorem rerun_rewrites_same_images st st' :
  main st = (st', inr tt) →
  ∃ st'', main st' = (st'', inr tt) ∧
    fs st'' = fs st' ∧ data st'' = data st' ∧
    stdout st'' =
      stdout st' ++ ["Saved: " +:+ pr_path; "Saved: " +:+ threshold_path; "Saved: " +:+ roc_path].
Proof.
  intros H.
  assert (Hcsv : fs st' !! csv_path = fs st !! csv_path).
  { change st' with ((st', @inr exn unit tt).1). rewrite <- H.
    apply writes_only_outputs_main, csv_path_not_output. }
  apply main_inr_inv in H as (records & Hf & Hok & H1 & H2 & H3 & Hst).
  cbv zeta in Hst. rewrite Hf in Hcsv.
  assert (Hunw : unwritable st' = unwritable st) by (subst st'; by destruct st).
  destruct (main_run st' records Hcsv Hok) as (_ & _ & _ & _ & Hmain).
  rewrite Hunw, !decide_False in Hmain by assumption.
  eexists. split; [exact Hmain|]. subst st'.
  destruct st as [dt fg fsys uw out]. unfold job_done. state_step.
  split; [apply three_inserts_twice|]. split; [reflexivity|]. by rewrite <- !app_assoc.
Qed.

Lemma cells_agree_rows_agree h1 rows1 h2 rows2 :
  NoDup h1 → NoDup h2 →
  Forall2 (λ r1 r2, ∀ c, c ∈ columns → is_Some (cell h1 r1 c) ∧ cell h1 r1 c = cell h2 r2 c)
          rows1 rows2 →
  Forall2 (λ r1 r2, ∀ c, c ∈ columns →
             field_value (DictReader_row h1 r1) c = field_value (DictReader_row h2 r2) c)
          (filter (λ r, r ≠ []) rows1) (filter (λ r, r ≠ []) rows2).
Proof.
  intros Hnd1 Hnd2 Hrows.
  assert (Hnb1 : Forall (λ r, r ≠ []) rows1).
  { eapply Forall2_Forall_l; [exact Hrows|]. apply Forall_true.
    intros r1 r2 Hc ->. destruct (Hc "threshold") as [[s Hs] _]; [in_columns|].
    by rewrite cell_nil_row in Hs. }
  assert (Hnb2 : Forall (λ r, r ≠ []) rows2).
  { eapply Forall2_Forall_r; [exact Hrows|]. apply Forall_true.
    intros r1 r2 Hc ->. destruct (Hc "threshold") as [[s Hs] Heq]; [in_columns|].
    by rewrite Heq, cell_nil_row in Hs. }
  rewrite !filter_not_blank by assumption.
  eapply Forall2_impl; [exact Hrows|].
  intros r1 r2 Hc c Hin. destruct (Hc c Hin) as [[s Hs] Heq].
  rewrite (field_value_cell _ _ _ _ Hnd1 Hs).
  rewrite Heq in Hs. by rewrite (field_value_cell _ _ _ _ Hnd2 Hs).
Qed.

(** X12. The three images depend only on the five named columns: two runs
    that return, on two CSV files whose headers have distinct names and
    whose data rows hold pairwise the same field under each of the five
    names, leave the same image at each of the three output paths, whatever
    the order of the header names, the other columns, the other files, the
    lines printed before and the figures open before. *)
Theorem images_depend_on_named_columns_only st1 st2 st1' st2' h1 rows1 h2 rows2 :
  fs st1 !! csv_path = Some (Text (h1 :: rows1)) →
  fs st2 !! csv_path = Some (Text (h2 :: rows2)) →
  NoDup h1 → NoDup h2 →
  Forall2 (λ r1 r2, ∀ c, c ∈ columns → is_Some (cell h1 r1 c) ∧ cell h1 r1 c = cell h2 r2 c)
          rows1 rows2 →
  main st1 = (st1', inr tt) → main st2 = (st2', inr tt) →
  ∀ p, p ∈ output_paths → fs st1' !! p = fs st2' !! p.
Proof.
  intros Hf1 Hf2 Hnd1 Hnd2 Hrows Hm1 Hm2.
  destruct (load_rows_agree _ _ _ _ _ _ Hf1 Hf2
              (cells_agree_rows_agree _ _ _ _ Hnd1 Hnd2 Hrows)) as [Hdata _].
  apply main_inr_inv in Hm1 as (rec1 & Hf1' & Hok1 & _ & _ & _ & Hst1).
  apply main_inr_inv in Hm2 as (rec2 & Hf2' & Hok2 & _ & _ & _ & Hst2).
  cbv zeta in Hst1, Hst2.
  rewrite (load_ok _ _ Hf1' Hok1), (load_ok _ _ Hf2' Hok2) in Hdata.
  cbn [fst] in Hdata. rewrite !data_set_data_const in Hdata.
  unfold loaded in Hdata. apply table_inj in Hdata as (Ha & Hb & Hc & Hd & He).
  subst st1' st2'. rewrite Ha, Hb, Hc, Hd, He.
  destruct paths_distinct as (H12 & H13 & H23).
  destruct st1 as [dt1 fg1 fsys1 uw1 out1], st2 as [dt2 fg2 fsys2 uw2 out2].
  unfold job_done. state_step.
  intros p Hp. unfold output_paths in Hp.
  rewrite !lookup_insert.
  apply elem_of_cons in Hp as [->|Hp]; [repeat case_decide; congruence|].
  apply elem_of_cons in Hp as [->|Hp]; [repeat case_decide; congruence|].
  apply elem_of_cons in Hp as [->|Hp]; [repeat case_decide; congruence|].
  by apply elem_of_nil in Hp.
Qed.

(** X13. [plt.close('all')] is the last statement and nothing guards it:
    a run that returns leaves no figure open, whatever figures were open
    before; a run that raises in a job leaves open the figures of the jobs
    it started, on top of those open before. *)
Theorem figures_closed_only_when_run_returns st st' :
  (main st = (st', inr tt) → figs st' = []) ∧
  (∀ e s0, main st = (st', inl e) → load st = (s0, inr tt) →
     ∃ fgs, fgs ≠ [] ∧ figs st' = fgs ++ figs st).
Proof.
  split.
  - intros H. apply main_inr_inv in H as (records & _ & _ & _ & _ & _ & ->).
    by destruct st.
  - intros e s0 H Hload.
    apply load_inr_inv in Hload as (records & Hf & Hok & _).
    destruct (main_run st records Hf Hok) as (_ & _ & _ & _ & Hmain).
    rewrite Hmain in H.
    destruct (decide (pr_path ∈ unwritable st)).
    { injection H as <- _. eexists [_]. split; [done|]. by destruct st. }
    destruct (decide (threshold_path ∈ unwritable st)).
    { injection H as <- _. eexists [_; _]. split; [done|]. by destruct st. }
    destruct (decide (roc_path ∈ unwritable st)); [|discriminate].
    injection H as <- _. eexists [_; _; _]. split; [done|]. by destruct st.
Qed.

End GenPlots.

(** * The model run on concrete files

    The statements below instantiate the floats with [Decimal]: they run the
    script on small files, and apply each theorem above to one of them. *)

(** A world with the given CSV records at the input path, no other file,
    the given unwritable paths, and nothing printed yet. *)
Abbreviation world records locked :=
  (mkState (F:=PrimFloat.float) ∅ [] {[csv_path := Text records]} locked []).

Abbreviation header := ["threshold"; "precision"; "recall"; "f1"; "fpr"] (only parsing).

(** The two data rows of the specification's scenario. *)
Abbreviation row1 := ["0.1"; "0.9"; "0.95"; "0.92"; "0.05"] (only parsing).
Abbreviation row2 := ["0.5"; "0.8"; "0.7"; "0.75"; "0.02"] (only parsing).

(** A row that stops before its [fpr] field. *)
Abbreviation short_row := ["0.5"; "0.8"; "0.7"; "0.75"] (only parsing).


(** The scenario of the specification: the five lists hold the floats of
    the two rows, in the order of the rows. *)
Example scenario_loaded_sequences :
  load Decimal.float_of_str (world [header; row1; row2] ∅) =
    (set_data (λ _, table (omap Decimal.float_of_str ["0.1"; "0.5"])
                          (omap Decimal.float_of_str ["0.9"; "0.8"])
                          (omap Decimal.float_of_str ["0.95"; "0.7"])
                          (omap Decimal.float_of_str ["0.92"; "0.75"])
                          (omap Decimal.float_of_str ["0.05"; "0.02"]))
       (world [header; row1; row2] ∅), inr tt).
Proof. vm_compute. reflexivity. Qed.




(** C3 on a world with no file at all. *)
Lemma missing_input_file_witness :
  ∃ st', main Decimal.float_of_str (mkState (F:=PrimFloat.float) ∅ [] ∅ ∅ []) =
           (st', inl (FileNotFoundError csv_path)) ∧
    is_IOError (FileNotFoundError csv_path) = true ∧
    fs st' = fs (mkState (F:=PrimFloat.float) ∅ [] ∅ ∅ []) ∧
    stdout st' = stdout (mkState (F:=PrimFloat.float) ∅ [] ∅ ∅ []).
Proof.
  apply (missing_input_file Decimal.float_of_str (mkState ∅ [] ∅ ∅ [])). reflexivity.
Defined.

(** C4 on the scenario of the specification. *)
Lemma loaded_table_aligned_and_read_only_witness :
  (∃ n, aligned (data (load Decimal.float_of_str (world [header; row1; row2] ∅)).1) n) ∧
  keeps_data (F:=PrimFloat.float) job1 ∧ keeps_data (F:=PrimFloat.float) job2 ∧
  keeps_data (F:=PrimFloat.float) job3 ∧
  data (main Decimal.float_of_str (world [header; row1; row2] ∅)).1 =
    data (load Decimal.float_of_str (world [header; row1; row2] ∅)).1.
Proof.
  apply (loaded_table_aligned_and_read_only Decimal.float_of_str
           (world [header; row1; row2] ∅)).
  vm_compute. reflexivity.
Defined.

(** C6 on the scenario of the specification. *)
Lemma saved_lines_in_job_order_witness :
  stdout (main Decimal.float_of_str (world [header; row1; row2] ∅)).1 =
    stdout (world [header; row1; row2] ∅) ++
      ["Saved: " +:+ pr_path; "Saved: " +:+ threshold_path; "Saved: " +:+ roc_path] ∧
  (∃ img, fs (main Decimal.float_of_str (world [header; row1; row2] ∅)).1 !! pr_path
            = Some (Png img)) ∧
  (∃ img, fs (main Decimal.float_of_str (world [header; row1; row2] ∅)).1 !! threshold_path
            = Some (Png img)) ∧
  (∃ img, fs (main Decimal.float_of_str (world [header; row1; row2] ∅)).1 !! roc_path
            = Some (Png img)).
Proof.
  apply (saved_lines_in_job_order Decimal.float_of_str (world [header; row1; row2] ∅)).
  vm_compute. reflexivity.
Defined.



(** C7 on the scenario of the specification, the path of the threshold
    image being unwritable. *)
Lemma render_failure_keeps_earlier_files_witness :
  let st := world [header; row1; row2] {[threshold_path]} in
  let s0 := (load Decimal.float_of_str st).1 in
  let s1 := (job1 s0).1 in
  (∃ img1, fs s1 = <[pr_path := Png img1]> (fs st)) ∧
  (∀ s2 e, job2 s1 = (s2, inl e) →
     main Decimal.float_of_str st = (s2, inl e) ∧ fs s2 = fs s1 ∧
     fs s2 !! threshold_path = fs st !! threshold_path ∧
     fs s2 !! roc_path = fs st !! roc_path ∧
     stdout s2 = stdout st ++ ["Saved: " +:+ pr_path]) ∧
  (∀ s2 s3 e, job2 s1 = (s2, inr tt) → job3 s2 = (s3, inl e) →
     main Decimal.float_of_str st = (s3, inl e) ∧ fs s3 = fs s2 ∧
     (∃ img2, fs s2 = <[threshold_path := Png img2]> (fs s1)) ∧
     fs s3 !! roc_path = fs st !! roc_path ∧
     stdout s3 = stdout st ++ ["Saved: " +:+ pr_path; "Saved: " +:+ threshold_path]).
Proof.
  apply (render_failure_keeps_earlier_files Decimal.float_of_str
           (world [header; row1; row2] {[threshold_path]})
           (load Decimal.float_of_str (world [header; row1; row2] {[threshold_path]})).1
           (job1 (load Decimal.float_of_str
                    (world [header; row1; row2] {[threshold_path]})).1).1).
  - vm_compute. reflexivity.
  - vm_compute. reflexivity.
Defined.

(** That run to its end: job 2 cannot write its file; the run ends with its
    [OSError], the image of job 1 in place and one line printed. *)
Example threshold_unwritable_run :
  (main Decimal.float_of_str (world [header; row1; row2] {[threshold_path]})).2
    = inl (OSError threshold_path) ∧
  stdout (main Decimal.float_of_str (world [header; row1; row2] {[threshold_path]})).1
    = ["Saved: " +:+ pr_path] ∧
  dom (fs (main Decimal.float_of_str (world [header; row1; row2] {[threshold_path]})).1)
    = {[csv_path; pr_path]}.
Proof. repeat split; vm_compute; reflexivity. Qed.

(** C8 on the scenario of the specification. *)
Lemma jobs_plot_specified_columns_witness :
  ∃ ths ps rs f1s fprs img1 img2 img3,
    data (main Decimal.float_of_str (world [header; row1; row2] ∅)).1
      = table ths ps rs f1s fprs ∧
    fs (main Decimal.float_of_str (world [header; row1; row2] ∅)).1 !! pr_path
      = Some (Png img1) ∧
    series (img_fig img1) = [(rs, ps)] ∧ hlines (img_fig img1) = [] ∧
    fs (main Decimal.float_of_str (world [header; row1; row2] ∅)).1 !! threshold_path
      = Some (Png img2) ∧
    series (img_fig img2) = [(ths, ps); (ths, rs); (ths, f1s)] ∧
    hy <$> hlines (img_fig img2) = [0%Z] ∧
    fs (main Decimal.float_of_str (world [header; row1; row2] ∅)).1 !! roc_path
      = Some (Png img3) ∧
    series (img_fig img3) = [(fprs, rs)] ∧ hlines (img_fig img3) = [] ∧
    pr_path ≠ threshold_path ∧ pr_path ≠ roc_path ∧ threshold_path ≠ roc_path.
Proof.
  apply (jobs_plot_specified_columns Decimal.float_of_str (world [header; row1; row2] ∅)).
  vm_compute. reflexivity.
Defined.


(** C10 on the five-name header alone. *)
Lemma header_only_csv_witness :
  ∃ st', main Decimal.float_of_str (world [header] ∅) = (st', inr tt) ∧
    load Decimal.float_of_str (world [header] ∅)
      = (set_data (λ _, table [] [] [] [] []) (world [header] ∅), inr tt) ∧
    data st' = table [] [] [] [] [] ∧
    fs st' = <[roc_path := Png (mkImage (roc_figure [] []) 100 "tight")]>
               (<[threshold_path := Png (mkImage (threshold_figure [] [] [] []) 100 "tight")]>
                  (<[pr_path := Png (mkImage (pr_figure [] []) 100 "tight")]>
                     (fs (world [header] ∅)))) ∧
    stdout st' =
      stdout (world [header] ∅) ++
        ["Saved: " +:+ pr_path; "Saved: " +:+ threshold_path; "Saved: " +:+ roc_path].
Proof.
  apply (header_only_csv Decimal.float_of_str (world [header] ∅) header).
  - reflexivity.
  - apply (bool_decide_unpack _). vm_compute. exact I.
  - apply (bool_decide_unpack _). vm_compute. exact I.
  - apply (bool_decide_unpack _). vm_compute. exact I.
Defined.

(** ** The further properties on concrete files *)





(** X8 on the two rows of the scenario, first loaded one by one. *)
Lemma appended_rows_extend_lists_witness :
  (load Decimal.float_of_str (world [header; row1; row2] ∅)).2 =
    (load Decimal.float_of_str (world [header; row2] ∅)).2 ∧
  ∀ c, c ∈ columns →
    ∃ l1 l2,
      data (load Decimal.float_of_str (world [header; row1] ∅)).1 !! c = Some l1 ∧
      data (load Decimal.float_of_str (world [header; row2] ∅)).1 !! c = Some l2 ∧
      data (load Decimal.float_of_str (world [header; row1; row2] ∅)).1 !! c
        = Some (l1 ++ l2).
Proof.
  apply (appended_rows_extend_lists Decimal.float_of_str
           (world [header; row1] ∅) (world [header; row2] ∅)
           (world [header; row1; row2] ∅) header [row1] [row2]
           (load Decimal.float_of_str (world [header; row1] ∅)).1).
  - reflexivity.
  - reflexivity.
  - reflexivity.
  - vm_compute. reflexivity.
Defined.


(** X11 on the scenario of the specification. *)
Lemma rerun_rewrites_same_images_witness :
  ∃ st'',
    main Decimal.float_of_str
      (main Decimal.float_of_str (world [header; row1; row2] ∅)).1 = (st'', inr tt) ∧
    fs st'' = fs (main Decimal.float_of_str (world [header; row1; row2] ∅)).1 ∧
    data st'' = data (main Decimal.float_of_str (world [header; row1; row2] ∅)).1 ∧
    stdout st'' =
      stdout (main Decimal.float_of_str (world [header; row1; row2] ∅)).1 ++
        ["Saved: " +:+ pr_path; "Saved: " +:+ threshold_path; "Saved: " +:+ roc_path].
Proof.
  apply (rerun_rewrites_same_images Decimal.float_of_str (world [header; row1; row2] ∅)).
  vm_compute. reflexivity.
Defined.

(** X12 on the scenario of the specification and on the same rows under a
    header in reverse order with one more column in front. *)
Lemma images_depend_on_named_columns_only_witness :
  fs (main Decimal.float_of_str (world [header; row1; row2] ∅)).1 !! pr_path =
    fs (main Decimal.float_of_str
          (world [["run"; "fpr"; "f1"; "recall"; "precision"; "threshold"];
                  ["a"; "0.05"; "0.92"; "0.95"; "0.9"; "0.1"];
                  ["b"; "0.02"; "0.75"; "0.7"; "0.8"; "0.5"]] ∅)).1 !! pr_path ∧
  fs (main Decimal.float_of_str (world [header; row1; row2] ∅)).1 !! threshold_path =
    fs (main Decimal.float_of_str
          (world [["run"; "fpr"; "f1"; "recall"; "precision"; "threshold"];
                  ["a"; "0.05"; "0.92"; "0.95"; "0.9"; "0.1"];
                  ["b"; "0.02"; "0.75"; "0.7"; "0.8"; "0.5"]] ∅)).1 !! threshold_path ∧
  fs (main Decimal.float_of_str (world [header; row1; row2] ∅)).1 !! roc_path =
    fs (main Decimal.float_of_str
          (world [["run"; "fpr"; "f1"; "recall"; "precision"; "threshold"];
                  ["a"; "0.05"; "0.92"; "0.95"; "0.9"; "0.1"];
                  ["b"; "0.02"; "0.75"; "0.7"; "0.8"; "0.5"]] ∅)).1 !! roc_path.
Proof.
  assert (H : ∀ p, p ∈ output_paths →
    fs (main Decimal.float_of_str (world [header; row1; row2] ∅)).1 !! p =
    fs (main Decimal.float_of_str
          (world [["run"; "fpr"; "f1"; "recall"; "precision"; "threshold"];
                  ["a"; "0.05"; "0.92"; "0.95"; "0.9"; "0.1"];
                  ["b"; "0.02"; "0.75"; "0.7"; "0.8"; "0.5"]] ∅)).1 !! p).
  { apply (images_depend_on_named_columns_only Decimal.float_of_str
             (world [header; row1; row2] ∅)
             (world [["run"; "fpr"; "f1"; "recall"; "precision"; "threshold"];
                     ["a"; "0.05"; "0.92"; "0.95"; "0.9"; "0.1"];
                     ["b"; "0.02"; "0.75"; "0.7"; "0.8"; "0.5"]] ∅)
             (main Decimal.float_of_str (world [header; row1; row2] ∅)).1
             (main Decimal.float_of_str
                (world [["run"; "fpr"; "f1"; "recall"; "precision"; "threshold"];
                        ["a"; "0.05"; "0.92"; "0.95"; "0.9"; "0.1"];
                        ["b"; "0.02"; "0.75"; "0.7"; "0.8"; "0.5"]] ∅)).1
             header [row1; row2]
             ["run"; "fpr"; "f1"; "recall"; "precision"; "threshold"]
             [["a"; "0.05"; "0.92"; "0.95"; "0.9"; "0.1"];
              ["b"; "0.02"; "0.75"; "0.7"; "0.8"; "0.5"]]).
    - reflexivity.
    - reflexivity.
    - apply (bool_decide_unpack _). vm_compute. exact I.
    - apply (bool_decide_unpack _). vm_compute. exact I.
    - constructor; [|constructor; [|constructor]];
        refine (elem_of_columns (λ c, is_Some (cell _ _ c) ∧ cell _ _ c = cell _ _ c) _ _ _ _ _);
        (split; [by eexists | reflexivity]).
    - vm_compute. reflexivity.
    - vm_compute. reflexivity. }
  repeat split; apply H; unfold output_paths; repeat constructor.
Defined.

(** A header that names [recall] twice: the later column is the one read. *)
Example repeated_name_later_column_read :
  field_value Decimal.float_of_str
    (DictReader_row ["recall"; "threshold"; "recall"] ["0.1"; "0.2"; "0.3"]) "recall"
  = field_value Decimal.float_of_str (DictReader_row ["recall"] ["0.3"]) "recall".
Proof. vm_compute. reflexivity. Qed.
